(** * API tool provider management service

    A shallow embedding of [api/services/tools/api_tools_manage_service.py]
    (class [ApiToolManageService]) together with the properties of its
    create / update / preview / remote-schema operations.

    Conventions of the embedding:
    - a Python [dict] with string keys is a [gmap string string];
    - a raised exception is the left injection of a sum, a returned value the
      right one; [let*] sequences fallible steps;
    - the table behind [db.session.query(ApiToolProvider)] is a list of rows;
      a row that was [add]ed to the session reaches the table at [commit],
      which the table refuses when tenant and name would no longer be
      unique; an exception before or at [commit] leaves the table as it was;
    - calls into collaborators that only have an effect outside the table
      (labels, encrypter cache) are recorded in an event log;
    - everything imported from other modules of the platform (schema parser,
      enum tables, JSON codec, encrypter, tool runtime, HTTP client) is a
      field of the record [Collaborators]. *)

From Stdlib Require Import Ascii String ZArith.
From stdpp Require Import base option list strings gmap fin_maps pretty.

Open Scope string_scope.

(** ** Exceptions and the result monad *)

Inductive exn : Type :=
| ValueError (msg : string)
| KeyError (key : string)
| IntegrityError (msg : string)
| Exception (msg : string).

Global Instance exn_eq_dec : EqDecision exn.
Proof. solve_decision. Defined.

(** [str(e)]; for a [KeyError] the key in quotes, as [repr] writes a key
    without quotes or escapes of its own. *)
Definition str (e : exn) : string :=
  match e with
  | ValueError msg => msg
  | KeyError key => "'" +:+ key +:+ "'"
  | IntegrityError msg => msg
  | Exception msg => msg
  end.

Definition raise {A : Type} (e : exn) : exn + A := inl e.
Definition ret {A : Type} (a : A) : exn + A := inr a.

Definition bind {A B : Type} (m : exn + A) (k : A -> exn + B) : exn + B :=
  match m with
  | inl e => inl e
  | inr a => k a
  end.

Notation "'let*' x ':=' m 'in' k" := (bind m (fun x => k))
  (at level 10, x pattern, m at level 100, k at level 200).

(** [try: m  except Exception as e: h(e)] *)
Definition try_except {A : Type} (m : exn + A) (h : exn -> exn + A) : exn + A :=
  match m with
  | inl e => h e
  | inr a => inr a
  end.

(** ** [str.strip()] on strings of code points below 256 *)

Definition isspace (c : ascii) : bool :=
  let n := nat_of_ascii c in
  (Nat.leb 9 n && Nat.leb n 13) || (Nat.leb 28 n && Nat.leb n 32)
  || Nat.eqb n 133 || Nat.eqb n 160.

Fixpoint lstrip (s : string) : string :=
  match s with
  | EmptyString => EmptyString
  | String c s' => if isspace c then lstrip s' else s
  end.

Fixpoint rstrip (s : string) : string :=
  match s with
  | EmptyString => EmptyString
  | String c s' =>
      match rstrip s' with
      | EmptyString => if isspace c then EmptyString else String c EmptyString
      | r => String c r
      end
  end.

Definition strip (s : string) : string := rstrip (lstrip s).

(** ** Data model *)

(** [core.tools.entities.tool_bundle.ApiToolBundle]: the service only reads
    [operation_id]; the remaining content is carried along unread. *)
Record ApiToolBundle : Type := {
  operation_id : string;
  openapi : string
}.

Global Instance ApiToolBundle_eq_dec : EqDecision ApiToolBundle.
Proof. solve_decision. Defined.

(** The options of the [auth_type] select field in [parser_api_schema]. *)
Inductive ApiProviderAuthType : Type := NONE | API_KEY.

Global Instance ApiProviderAuthType_eq_dec : EqDecision ApiProviderAuthType.
Proof. solve_decision. Defined.

(** [models.tools.ApiToolProvider]; [id] is [None] until the row is
    committed. *)
Record ApiToolProvider : Type := {
  id : option nat;
  tenant_id : string;
  user_id : string;
  name : string;
  icon : string;
  schema : string;
  description : string;
  schema_type_str : string;
  tools_str : string;
  credentials_str : string;
  privacy_policy : string;
  custom_disclaimer : string
}.

Global Instance ApiToolProvider_eq_dec : EqDecision ApiToolProvider.
Proof. solve_decision. Defined.

(** [ApiToolProviderController.from_db(db_provider, auth_type)] followed by
    [load_bundled_tools(tool_bundles)]: the controller is derived from the
    record as it is at that point and the auth type, and holds the bundles. *)
Record ApiToolProviderController : Type := {
  entity : ApiToolProvider;
  auth_type : ApiProviderAuthType;
  tools : list ApiToolBundle
}.

Definition from_db (db_provider : ApiToolProvider) (a : ApiProviderAuthType)
  : ApiToolProviderController :=
  {| entity := db_provider; auth_type := a; tools := [] |}.

Definition load_bundled_tools (c : ApiToolProviderController)
    (tool_bundles : list ApiToolBundle) : ApiToolProviderController :=
  {| entity := entity c; auth_type := auth_type c; tools := tool_bundles |}.

(** The encrypter returned by [create_tool_provider_encrypter]. *)
Record Encrypter : Type := {
  encrypt : gmap string string -> gmap string string;
  decrypt : gmap string string -> gmap string string;
  mask_tool_credentials : gmap string string -> gmap string string
}.

(** [ToolRuntime(credentials=..., tenant_id=...)] *)
Record ToolRuntime : Type := {
  runtime_credentials : gmap string string;
  runtime_tenant_id : string
}.

(** A tool obtained from a controller, with the runtime it was forked with. *)
Record Tool : Type := {
  tool_bundle : ApiToolBundle;
  tool_controller : ApiToolProviderController;
  runtime : option ToolRuntime
}.

(** [httpx] response. *)
Record Response : Type := {
  status_code : Z;
  text : string
}.

(** What [auto_parse_to_tool_bundle] hands back: the bundles, the detected
    schema type, the warnings it wrote into [warning] and the description it
    wrote into [extra_info] (when it found one). *)
Record Parsed : Type := {
  parsed_bundles : list ApiToolBundle;
  parsed_schema_type : string;
  parsed_warnings : gmap string string;
  parsed_description : option string
}.

(** Effects on collaborators that keep state of their own. *)
Inductive event : Type :=
| UpdateToolLabels (c : ApiToolProviderController) (labels : list string)
| CacheDelete (tenant : string) (c : ApiToolProviderController).

(** The world a request runs in: the provider table, the next identity the
    table hands out, and the log of outside effects (latest first). *)
Record World : Type := {
  rows : list ApiToolProvider;
  next_id : nat;
  effects : list event
}.

(** ** Collaborators *)

Record Collaborators : Type := {
  (** [[member.value for member in ApiProviderSchemaType]] *)
  schema_type_values : list string;
  (** [ApiProviderSchemaType.OPENAPI.value] *)
  OPENAPI_value : string;
  (** [ApiProviderAuthType.value_of] *)
  value_of : string -> exn + ApiProviderAuthType;
  (** [ApiBasedToolSchemaParser.auto_parse_to_tool_bundle] *)
  auto_parse_to_tool_bundle : string -> exn + Parsed;
  (** [json.dumps] of a dict, [json.dumps(jsonable_encoder(bundles))], and
      the [credentials] property of a record ([json.loads] of
      [credentials_str]) *)
  json_dumps : gmap string string -> string;
  json_dumps_bundles : list ApiToolBundle -> string;
  json_loads : string -> gmap string string;
  (** [create_tool_provider_encrypter(tenant_id, controller)] *)
  create_tool_provider_encrypter :
    string -> ApiToolProviderController -> Encrypter;
  (** [provider_controller.validate_credentials_format] *)
  validate_credentials_format :
    ApiToolProviderController -> gmap string string -> exn + unit;
  (** [provider_controller.get_tool] *)
  get_tool : ApiToolProviderController -> string -> exn + Tool;
  (** [tool.validate_credentials(credentials, parameters)]: the live call *)
  validate_credentials :
    Tool -> gmap string string -> gmap string string -> exn + string;
  (** [httpx.get(url, headers=headers, timeout=timeout)] *)
  get : string -> list (string * string) -> nat -> exn + Response
}.

(** What an operation of the service returns: [{"result": r}],
    [{"error": msg}] or [{"schema": text}]. *)
Inductive reply : Type :=
| Result (r : string)
| Error (msg : string)
| Schema (schema_text : string).

Global Instance reply_eq_dec : EqDecision reply.
Proof. solve_decision. Defined.

(** One field of the credentials form returned by [parser_api_schema]. *)
Inductive ProviderConfigType : Type := SELECT | TEXT_INPUT.

Record ProviderConfig : Type := {
  config_name : string;
  config_type : ProviderConfigType;
  config_required : bool;
  config_default : string;
  config_options : list (string * string)
}.

(** The mapping returned by [parser_api_schema]. *)
Record SchemaInfo : Type := {
  info_schema_type : string;
  info_parameters_schema : list ApiToolBundle;
  info_credentials_schema : list ProviderConfig;
  info_warning : gmap string string
}.

(** ** The provider table *)

(** [db.session.query(ApiToolProvider).where(tenant_id == t, name == n).first()]:
    the first matching row, with its position in the table. *)
Definition query_first (w : World) (t n : string)
  : option (nat * ApiToolProvider) :=
  list_find (fun p => tenant_id p = t /\ name p = n) (rows w).

(** Modelled from the spec: the unique constraint of the provider table on
    tenant and name.  The table is declared with the model class, outside
    this file; the spec gives the invariant ([(tenant id, name) is unique])
    and leaves its enforcement to the record store.  A commit that would
    leave a second row with the tenant and name of the row it writes is
    refused with the store's integrity error, and nothing is written. *)
Definition UniqueViolation : exn :=
  IntegrityError "duplicate key value violates unique constraint (name, tenant_id)".

Definition taken (p : ApiToolProvider) (others : list ApiToolProvider) : Prop :=
  (tenant_id p, name p) ∈ (fun q => (tenant_id q, name q)) <$> others.

Global Instance taken_dec p others : Decision (taken p others).
Proof. unfold taken. apply _. Defined.

(** The table with a new row for the object: the table assigns the
    identity. *)
Definition append_row (w : World) (p : ApiToolProvider) : World :=
  {| rows := rows w ++
       [ {| id := Some (next_id w); tenant_id := tenant_id p;
            user_id := user_id p; name := name p; icon := icon p;
            schema := schema p; description := description p;
            schema_type_str := schema_type_str p; tools_str := tools_str p;
            credentials_str := credentials_str p;
            privacy_policy := privacy_policy p;
            custom_disclaimer := custom_disclaimer p |} ];
     next_id := S (next_id w);
     effects := effects w |}.

(** [db.session.add(p); db.session.commit()] for a new object. *)
Definition commit_new (w : World) (p : ApiToolProvider) : exn + World :=
  if decide (taken p (rows w)) then raise UniqueViolation
  else ret (append_row w p).

(** The table with row [i] taking the fields of the object loaded from it. *)
Definition write_row (w : World) (i : nat) (p : ApiToolProvider) : World :=
  {| rows := <[i := p]> (rows w);
     next_id := next_id w;
     effects := effects w |}.

(** [db.session.add(p); db.session.commit()] for the object loaded from row
    [i]: the other rows are those the constraint compares with. *)
Definition commit_row (w : World) (i : nat) (p : ApiToolProvider)
  : exn + World :=
  if decide (taken p (delete i (rows w))) then raise UniqueViolation
  else ret (write_row w i p).

(** [db.session.delete(p); db.session.commit()] for the object loaded from
    row [i]. *)
Definition commit_delete (w : World) (i : nat) : World :=
  {| rows := delete i (rows w);
     next_id := next_id w;
     effects := effects w |}.

Definition log (ev : event) (w : World) : World :=
  {| rows := rows w; next_id := next_id w; effects := ev :: effects w |}.

(** The assignments [provider.name = ...] to [provider.custom_disclaimer = ...]
    of [update_api_tool_provider]. *)
Definition assign_fields (provider : ApiToolProvider)
    (name icon schema description schema_type_str tools_str
     privacy_policy custom_disclaimer : string) : ApiToolProvider :=
  {| id := id provider; tenant_id := tenant_id provider;
     user_id := user_id provider;
     name := name; icon := icon; schema := schema;
     description := description; schema_type_str := schema_type_str;
     tools_str := tools_str;
     credentials_str := credentials_str provider;
     privacy_policy := privacy_policy;
     custom_disclaimer := custom_disclaimer |}.

(** [provider.credentials_str = v] *)
Definition assign_credentials_str (provider : ApiToolProvider) (v : string)
  : ApiToolProvider :=
  {| id := id provider; tenant_id := tenant_id provider;
     user_id := user_id provider; name := name provider;
     icon := icon provider; schema := schema provider;
     description := description provider;
     schema_type_str := schema_type_str provider;
     tools_str := tools_str provider;
     credentials_str := v;
     privacy_policy := privacy_policy provider;
     custom_disclaimer := custom_disclaimer provider |}.

(** [tool.fork_tool_runtime(runtime=rt)] *)
Definition fork_tool_runtime (tool : Tool) (rt : ToolRuntime) : Tool :=
  {| tool_bundle := tool_bundle tool;
     tool_controller := tool_controller tool;
     runtime := Some rt |}.

(** The invariant of the table: no two rows share tenant and name. *)
Definition unique_names (w : World) : Prop :=
  NoDup ((fun p => (tenant_id p, name p)) <$> rows w).

Global Instance unique_names_dec (w : World) : Decision (unique_names w).
Proof. unfold unique_names. apply _. Defined.

(** ** The merge loop shared by update and preview

    [for name, value in credentials.items():
         if name in masked_credentials and value == masked_credentials[name]:
             credentials[name] = original_credentials[name]]

    The loop body only assigns to the key it is visiting, so [value] is the
    submitted value of that key.  The merged dict does not depend on the order
    in which the items are visited; only the key named by a [KeyError] does. *)
Definition keep_original (original masked : gmap string string)
    (acc : exn + gmap string string) (item : string * string)
  : exn + gmap string string :=
  let* credentials := acc in
  match masked !! item.1 with
  | Some m =>
      if decide (item.2 = m) then
        match original !! item.1 with
        | Some o => ret (<[item.1 := o]> credentials)
        | None => raise (KeyError item.1)
        end
      else ret credentials
  | None => ret credentials
  end.

Definition save_original_credentials (original masked : gmap string string)
    (credentials : gmap string string) : exn + gmap string string :=
  foldl (keep_original original masked) (ret credentials)
        (map_to_list credentials).

(** Error values of the service, named after the class each stands for. *)
Definition ConflictError (provider_name : string) : exn :=
  ValueError ("provider " +:+ provider_name +:+ " already exists").
Definition LimitExceededError : exn :=
  ValueError "the number of apis should be less than 100".
Definition InvalidSchemaError : exn :=
  ValueError "invalid schema, please check the url you provided".
Definition AuthTypeRequired : exn :=
  ValueError "auth_type is required".

Definition headers : list (string * string) :=
  [ ("User-Agent",
     "Mozilla/5.0 (Macintosh; Intel Mac OS X 10_15_7) AppleWebKit/537.36 (KHTML, like Gecko)"
     +:+ " Chrome/120.0.0.0 Safari/537.36 Edg/120.0.0.0");
    ("Accept", "*/*") ].

Definition credentials_schema : list ProviderConfig :=
  [ {| config_name := "auth_type"; config_type := SELECT;
       config_required := true; config_default := "none";
       config_options := [("none", "None"); ("api_key", "Api Key")] |};
    {| config_name := "api_key_header"; config_type := TEXT_INPUT;
       config_required := false; config_default := "api_key";
       config_options := [] |};
    {| config_name := "api_key_value"; config_type := TEXT_INPUT;
       config_required := false; config_default := "";
       config_options := [] |} ].

(** ** The service *)

Section Service.
Context (E : Collaborators).

Definition recognized (schema_type : string) : bool :=
  bool_decide (schema_type ∈ schema_type_values E).

(** [extra_info.get("description", "")] *)
Definition extra_info_description (parsed : Parsed) : string :=
  default "" (parsed_description parsed).

Definition parser_api_schema (schema : string) : exn + SchemaInfo :=
  try_except
    (let* parsed :=
       try_except (auto_parse_to_tool_bundle E schema)
         (fun e => raise (ValueError ("invalid schema: " +:+ str e))) in
     ret {| info_schema_type := parsed_schema_type parsed;
            info_parameters_schema := parsed_bundles parsed;
            info_credentials_schema := credentials_schema;
            info_warning := parsed_warnings parsed |})
    (fun e => raise (ValueError ("invalid schema: " +:+ str e))).

Definition convert_schema_to_tool_bundles (schema : string) : exn + Parsed :=
  try_except (auto_parse_to_tool_bundle E schema)
    (fun e => raise (ValueError ("invalid schema: " +:+ str e))).

(** The transient record is built with [credentials_str={}], which the
    function overwrites before the record is added to the session; the text
    of the empty dict stands for it here. *)
Definition create_api_tool_provider (w : World)
    (user_id tenant_id provider_name : string) (icon : gmap string string)
    (credentials : gmap string string)
    (schema_type schema privacy_policy custom_disclaimer : string)
    (labels : list string) : exn + (World * reply) :=
  if negb (recognized schema_type) then
    raise (ValueError ("invalid schema type " +:+ schema))
  else
  let provider_name := strip provider_name in
  match query_first w tenant_id provider_name with
  | Some _ => raise (ConflictError provider_name)
  | None =>
  let* parsed := convert_schema_to_tool_bundles schema in
  let tool_bundles := parsed_bundles parsed in
  let schema_type := parsed_schema_type parsed in
  if Nat.ltb 100 (length tool_bundles) then raise LimitExceededError else
  let db_provider :=
    {| id := None; tenant_id := tenant_id; user_id := user_id;
       name := provider_name; icon := json_dumps E icon; schema := schema;
       description := extra_info_description parsed;
       schema_type_str := schema_type;
       tools_str := json_dumps_bundles E tool_bundles;
       credentials_str := json_dumps E ∅;
       privacy_policy := privacy_policy;
       custom_disclaimer := custom_disclaimer |} in
  match credentials !! "auth_type" with
  | None => raise AuthTypeRequired
  | Some a =>
  let* auth := value_of E a in
  let provider_controller :=
    load_bundled_tools (from_db db_provider auth) tool_bundles in
  let encrypter :=
    create_tool_provider_encrypter E tenant_id provider_controller in
  let db_provider :=
    assign_credentials_str db_provider
      (json_dumps E (encrypt encrypter credentials)) in
  let* w := commit_new w db_provider in
  let w := log (UpdateToolLabels provider_controller labels) w in
  ret (w, Result "success")
  end
  end.

Definition get_api_tool_provider_remote_schema
    (user_id tenant_id url : string) : exn + reply :=
  let* schema :=
    try_except
      (let* response := get E url headers 10 in
       if bool_decide (status_code response ≠ 200%Z) then
         raise (ValueError
                  ("Got status code " +:+ pretty (status_code response)))
       else
       let schema := text response in
       let* _ := parser_api_schema schema in
       ret schema)
      (fun _ => raise InvalidSchemaError) in
  ret (Schema schema).

Definition update_api_tool_provider (w : World)
    (user_id tenant_id provider_name original_provider : string)
    (icon : gmap string string) (credentials : gmap string string)
    (schema_type schema privacy_policy custom_disclaimer : string)
    (labels : list string) : exn + (World * reply) :=
  if negb (recognized schema_type) then
    raise (ValueError ("invalid schema type " +:+ schema))
  else
  let provider_name := strip provider_name in
  match query_first w tenant_id original_provider with
  | None =>
      raise (ValueError ("api provider " +:+ provider_name +:+ " does not exists"))
  | Some (i, provider) =>
  let* parsed := convert_schema_to_tool_bundles schema in
  let tool_bundles := parsed_bundles parsed in
  let provider :=
    assign_fields provider provider_name (json_dumps E icon) schema
      (extra_info_description parsed) (OPENAPI_value E)
      (json_dumps_bundles E tool_bundles) privacy_policy custom_disclaimer in
  match credentials !! "auth_type" with
  | None => raise AuthTypeRequired
  | Some a =>
  let* auth := value_of E a in
  let provider_controller :=
    load_bundled_tools (from_db provider auth) tool_bundles in
  let encrypter :=
    create_tool_provider_encrypter E tenant_id provider_controller in
  let original_credentials :=
    decrypt encrypter (json_loads E (credentials_str provider)) in
  let masked_credentials :=
    mask_tool_credentials encrypter original_credentials in
  let* credentials :=
    save_original_credentials original_credentials masked_credentials
      credentials in
  let credentials := encrypt encrypter credentials in
  let provider := assign_credentials_str provider (json_dumps E credentials) in
  let* w := commit_row w i provider in
  let w := log (CacheDelete tenant_id provider_controller) w in
  let w := log (UpdateToolLabels provider_controller labels) w in
  ret (w, Result "success")
  end
  end.

Definition delete_api_tool_provider (w : World)
    (user_id tenant_id provider_name : string) : exn + (World * reply) :=
  match query_first w tenant_id provider_name with
  | None =>
      raise (ValueError ("you have not added provider " +:+ provider_name))
  | Some (i, _) => ret (commit_delete w i, Result "success")
  end.

(** The record [test_api_tool_preview] builds when the lookup finds none. *)
Definition fake_db_provider (schema : string)
    (tool_bundles : list ApiToolBundle) (credentials : gmap string string)
  : ApiToolProvider :=
  {| id := None; tenant_id := ""; user_id := ""; name := ""; icon := "";
     schema := schema; description := "";
     schema_type_str := OPENAPI_value E;
     tools_str := json_dumps_bundles E tool_bundles;
     credentials_str := json_dumps E credentials;
     privacy_policy := ""; custom_disclaimer := "" |}.

(** The record the preview works on. *)
Definition preview_db_provider (w : World) (tenant_id provider_name : string)
    (schema : string) (tool_bundles : list ApiToolBundle)
    (credentials : gmap string string) : ApiToolProvider :=
  match query_first w tenant_id provider_name with
  | Some (_, db_provider) => db_provider
  | None => fake_db_provider schema tool_bundles credentials
  end.

(** The block under [if db_provider.id:]. *)
Definition preview_credentials (db_provider : ApiToolProvider)
    (tenant_id : string) (provider_controller : ApiToolProviderController)
    (credentials : gmap string string) : exn + gmap string string :=
  match id db_provider with
  | Some _ =>
      let encrypter :=
        create_tool_provider_encrypter E tenant_id provider_controller in
      let decrypted_credentials := decrypt encrypter credentials in
      let masked_credentials :=
        mask_tool_credentials encrypter decrypted_credentials in
      save_original_credentials decrypted_credentials masked_credentials
        credentials
  | None => ret credentials
  end.

(** The body of the final [try] block. *)
Definition preview_try (provider_controller : ApiToolProviderController)
    (tenant_id tool_name : string)
    (credentials parameters : gmap string string) : exn + string :=
  let* _ := validate_credentials_format E provider_controller credentials in
  let* tool := get_tool E provider_controller tool_name in
  let tool :=
    fork_tool_runtime tool
      {| runtime_credentials := credentials;
         runtime_tenant_id := tenant_id |} in
  validate_credentials E tool credentials parameters.

Definition test_api_tool_preview (w : World)
    (tenant_id provider_name tool_name : string)
    (credentials parameters : gmap string string)
    (schema_type schema : string) : exn + reply :=
  if negb (recognized schema_type) then
    raise (ValueError ("invalid schema type " +:+ schema_type))
  else
  let* parsed :=
    try_except (auto_parse_to_tool_bundle E schema)
      (fun _ => raise (ValueError "invalid schema")) in
  let tool_bundles := parsed_bundles parsed in
  match List.find (fun tb => bool_decide (operation_id tb = tool_name))
          tool_bundles with
  | None => raise (ValueError ("invalid tool name " +:+ tool_name))
  | Some tool_bundle =>
  let db_provider :=
    preview_db_provider w tenant_id provider_name schema tool_bundles
      credentials in
  match credentials !! "auth_type" with
  | None => raise AuthTypeRequired
  | Some a =>
  let* auth := value_of E a in
  let provider_controller :=
    load_bundled_tools (from_db db_provider auth) tool_bundles in
  let* credentials :=
    preview_credentials db_provider tenant_id provider_controller
      credentials in
  match preview_try provider_controller tenant_id tool_name credentials
          parameters with
  | inl e => ret (Error (str e))
  | inr result =>
      ret (Result (if decide (result = "") then "empty response" else result))
  end
  end
  end.

End Service.

(** ** The steps of a successful create, named *)

(** The transient record built before the credentials are encrypted. *)
Definition create_fields (E : Collaborators)
    (user_id tenant_id provider_name : string) (icon : gmap string string)
    (schema privacy_policy custom_disclaimer : string) (parsed : Parsed)
  : ApiToolProvider :=
  {| id := None; tenant_id := tenant_id; user_id := user_id;
     name := strip provider_name; icon := json_dumps E icon;
     schema := schema;
     description := extra_info_description parsed;
     schema_type_str := parsed_schema_type parsed;
     tools_str := json_dumps_bundles E (parsed_bundles parsed);
     credentials_str := json_dumps E ∅;
     privacy_policy := privacy_policy;
     custom_disclaimer := custom_disclaimer |}.

Section Create.
Context (E : Collaborators).
Context (user_id tenant provider_name : string).
Context (icon credentials : gmap string string).
Context (schema privacy_policy custom_disclaimer : string).
Context (parsed : Parsed) (auth : ApiProviderAuthType).

Definition create_controller : ApiToolProviderController :=
  load_bundled_tools
    (from_db (create_fields E user_id tenant provider_name icon schema
                privacy_policy custom_disclaimer parsed) auth)
    (parsed_bundles parsed).

Definition create_record : ApiToolProvider :=
  assign_credentials_str
    (create_fields E user_id tenant provider_name icon schema
       privacy_policy custom_disclaimer parsed)
    (json_dumps E
       (encrypt (create_tool_provider_encrypter E tenant create_controller)
          credentials)).

Definition create_world (w : World) (labels : list string) : World :=
  log (UpdateToolLabels create_controller labels)
    (append_row w create_record).

End Create.

(** ** The steps of a successful update, named *)

Section Update.
Context (E : Collaborators).
Context (provider : ApiToolProvider).
Context (tenant_id provider_name : string) (icon : gmap string string).
Context (schema privacy_policy custom_disclaimer : string).
Context (parsed : Parsed) (auth : ApiProviderAuthType).

(** The record after the field assignments of the update, before its
    credentials are re-encrypted. *)
Definition update_fields : ApiToolProvider :=
  assign_fields provider (strip provider_name) (json_dumps E icon) schema
    (extra_info_description parsed) (OPENAPI_value E)
    (json_dumps_bundles E (parsed_bundles parsed))
    privacy_policy custom_disclaimer.

Definition update_controller : ApiToolProviderController :=
  load_bundled_tools (from_db update_fields auth) (parsed_bundles parsed).

Definition update_encrypter : Encrypter :=
  create_tool_provider_encrypter E tenant_id update_controller.

(** The plaintext of the credentials stored before the update, and its
    masked form. *)
Definition stored_plaintext : gmap string string :=
  decrypt update_encrypter (json_loads E (credentials_str provider)).

Definition stored_mask : gmap string string :=
  mask_tool_credentials update_encrypter stored_plaintext.

(** The record written by the update for the merged credentials. *)
Definition update_record (merged : gmap string string) : ApiToolProvider :=
  assign_credentials_str update_fields
    (json_dumps E (encrypt update_encrypter merged)).

Definition update_world (w : World) (i : nat) (labels : list string)
    (merged : gmap string string) : World :=
  log (UpdateToolLabels update_controller labels)
    (log (CacheDelete tenant_id update_controller)
       (write_row w i (update_record merged))).

End Update.

(** ** The steps of a preview, named *)

(** The statements of [test_api_tool_preview] that come before its final
    [try] block: they produce the controller and the credentials the block
    works with, or raise. *)
Definition preview_prefix (E : Collaborators) (w : World)
    (tenant provider_name tool_name : string)
    (credentials : gmap string string) (schema_type schema_text : string)
  : exn + (ApiToolProviderController * gmap string string) :=
  if negb (recognized E schema_type) then
    raise (ValueError ("invalid schema type " +:+ schema_type))
  else
  let* parsed :=
    try_except (auto_parse_to_tool_bundle E schema_text)
      (fun _ => raise (ValueError "invalid schema")) in
  match List.find (fun tb => bool_decide (operation_id tb = tool_name))
          (parsed_bundles parsed) with
  | None => raise (ValueError ("invalid tool name " +:+ tool_name))
  | Some _ =>
  match credentials !! "auth_type" with
  | None => raise AuthTypeRequired
  | Some a =>
  let* auth := value_of E a in
  let db_provider :=
    preview_db_provider E w tenant provider_name schema_text
      (parsed_bundles parsed) credentials in
  let provider_controller :=
    load_bundled_tools (from_db db_provider auth) (parsed_bundles parsed) in
  let* credentials :=
    preview_credentials E db_provider tenant provider_controller credentials in
  ret (provider_controller, credentials)
  end
  end.

(** The reply built from the outcome of the [try] block. *)
Definition preview_reply (outcome : exn + string) : reply :=
  match outcome with
  | inl e => Error (str e)
  | inr result => Result (if decide (result = "") then "empty response" else result)
  end.

(** ** A concrete set of collaborators

    Small stand-ins for the modules the service imports, used to run the
    service on concrete requests.  Schema documents are written
    [type:description:op1,op2,...]; a dict is serialised as [k=v;k=v;]; the
    encrypter of an [api_key] provider protects the field [api_key_value];
    the remote endpoint behind every tool accepts the key [secret1]. *)
Module Demo.

Fixpoint split_on (sep : ascii) (s : string) : list string :=
  match s with
  | EmptyString => [EmptyString]
  | String c s' =>
      if decide (c = sep) then EmptyString :: split_on sep s'
      else match split_on sep s' with
           | [] => [String c EmptyString]
           | w :: ws => String c w :: ws
           end
  end.

Definition join (sep : string) (l : list string) : string :=
  foldr (fun x acc => x +:+ sep +:+ acc) "" l.

Definition schema_types : list string :=
  ["openapi"; "swagger"; "openai_plugin"; "openai_actions"].

Definition bundle (op : string) : ApiToolBundle :=
  {| operation_id := op; openapi := "GET /" +:+ op |}.

Definition parse (schema : string) : exn + Parsed :=
  match split_on ":" schema with
  | [ty; descr; ops] =>
      if bool_decide (ty ∈ schema_types) then
        ret {| parsed_bundles := bundle <$> split_on "," ops;
               parsed_schema_type := ty;
               parsed_warnings := ∅;
               parsed_description :=
                 if decide (descr = "") then None else Some descr |}
      else raise (Exception ("unsupported dialect " +:+ ty))
  | _ => raise (Exception "malformed document")
  end.

Definition dumps (m : gmap string string) : string :=
  join ";" ((fun kv => kv.1 +:+ "=" +:+ kv.2) <$> map_to_list m).

Definition loads (s : string) : gmap string string :=
  list_to_map
    (omap (fun item => match split_on "=" item with
                       | [k; v] => Some (k, v)
                       | _ => None
                       end)
          (split_on ";" s)).

Definition dumps_bundles (l : list ApiToolBundle) : string :=
  join "," (operation_id <$> l).

Definition auth_value_of (v : string) : exn + ApiProviderAuthType :=
  if decide (v = "none") then ret NONE
  else if decide (v = "api_key") then ret API_KEY
  else raise (ValueError ("Invalid auth type " +:+ v)).

Fixpoint stars (n : nat) : string :=
  match n with
  | O => ""
  | S n' => String "*" (stars n')
  end.

(** Partial reveal: two characters at each end of a long secret. *)
Definition mask_value (v : string) : string :=
  let n := String.length v in
  if Nat.ltb 6 n then
    substring 0 2 v +:+ stars (n - 4) +:+ substring (n - 2) 2 v
  else stars n.

Definition seal (v : string) : string := "enc:" +:+ v.

Definition unseal (v : string) : string :=
  if decide (substring 0 4 v = "enc:")
  then substring 4 (String.length v - 4) v else v.

Definition encrypter_for (tenant : string) (c : ApiToolProviderController)
  : Encrypter :=
  match auth_type c with
  | NONE => {| encrypt := fun m => m; decrypt := fun m => m;
               mask_tool_credentials := fun m => m |}
  | API_KEY =>
      {| encrypt := alter seal "api_key_value";
         decrypt := alter unseal "api_key_value";
         mask_tool_credentials := alter mask_value "api_key_value" |}
  end.

Definition check_format (c : ApiToolProviderController)
    (credentials : gmap string string) : exn + unit :=
  match auth_type c, credentials !! "api_key_value" with
  | API_KEY, None => raise (ValueError "credential api_key_value is required")
  | _, _ => ret tt
  end.

Definition lookup_tool (c : ApiToolProviderController) (tool_name : string)
  : exn + Tool :=
  match List.find (fun tb => bool_decide (operation_id tb = tool_name))
          (tools c) with
  | Some tb => ret {| tool_bundle := tb; tool_controller := c;
                      runtime := None |}
  | None => raise (ValueError ("tool " +:+ tool_name +:+ " not found"))
  end.

Definition live_call (tool : Tool) (credentials parameters : gmap string string)
  : exn + string :=
  if decide (credentials !! "api_key_value" = Some "secret1")
  then ret "pong"
  else raise (Exception "401 Unauthorized").

Definition petstore : string := "openapi:Pet store:getPet,addPet".

Definition fetch (url : string) (hs : list (string * string)) (timeout : nat)
  : exn + Response :=
  if decide (url = "https://example.com/openapi.txt") then
    ret {| status_code := 200; text := petstore |}
  else if decide (url = "https://example.com/created") then
    ret {| status_code := 201; text := petstore |}
  else if decide (url = "https://example.com/missing") then
    ret {| status_code := 404; text := "Not Found" |}
  else if decide (url = "https://example.com/index.html") then
    ret {| status_code := 200; text := "<html></html>" |}
  else raise (Exception "connection refused").

Definition env : Collaborators :=
  {| schema_type_values := schema_types;
     OPENAPI_value := "openapi";
     value_of := auth_value_of;
     auto_parse_to_tool_bundle := parse;
     json_dumps := dumps;
     json_dumps_bundles := dumps_bundles;
     json_loads := loads;
     create_tool_provider_encrypter := encrypter_for;
     validate_credentials_format := check_format;
     get_tool := lookup_tool;
     validate_credentials := live_call;
     get := fetch |}.

Definition empty_world : World :=
  {| rows := []; next_id := 1; effects := [] |}.

Definition api_key_credentials (key : string) : gmap string string :=
  {[ "auth_type" := "api_key"; "api_key_value" := key ]}.

(** A schema document of the given type with operations [op0 .. op(n-1)]. *)
Definition schema_with (ty : string) (n : nat) : string :=
  ty +:+ ":generated:" +:+
  match (fun i => "op" +:+ pretty i) <$> seq 0 n with
  | [] => ""
  | op :: ops => foldl (fun acc x => acc +:+ "," +:+ x) op ops
  end.

(** The world after tenant [t1] registered [weather] with key [secret1]. *)
Definition world1 : World :=
  match create_api_tool_provider env empty_world "u1" "t1" "weather" ∅
          (api_key_credentials "secret1") "openapi" petstore "" "" [] with
  | inr (w, _) => w
  | inl _ => empty_world
  end.

(** ... and then [pets] under the same tenant. *)
Definition world2 : World :=
  match create_api_tool_provider env world1 "u1" "t1" "pets" ∅
          (api_key_credentials "secret2") "openapi" petstore "" "" [] with
  | inr (w, _) => w
  | inl _ => world1
  end.

End Demo.


Module DemoUpdate.
Import Demo.

(** Tenant [t1] re-submits the masked key it was shown for [weather]. *)
Definition resubmitted : gmap string string :=
  api_key_credentials (mask_value "secret1").

Definition update_with (credentials : gmap string string) (w : World)
  : exn + (World * reply) :=
  update_api_tool_provider env w "u1" "t1" "weather" "weather" ∅
    credentials "openapi" petstore "" "" [].

Definition world_after (credentials : gmap string string) : World :=
  match update_with credentials world1 with
  | inr (w, _) => w
  | inl _ => world1
  end.

Definition weather_row : ApiToolProvider :=
  default (fake_db_provider env "" [] ∅) (rows world1 !! 0).

Definition petstore_parsed : Parsed :=
  match parse petstore with
  | inr p => p
  | inl _ => {| parsed_bundles := []; parsed_schema_type := "";
                parsed_warnings := ∅; parsed_description := None |}
  end.

End DemoUpdate.

(** Requests used to run the service on the concrete collaborators. *)
Module DemoCases.
Import Demo.

Definition no_parse : Parsed :=
  {| parsed_bundles := []; parsed_schema_type := "";
     parsed_warnings := ∅; parsed_description := None |}.

Definition parsed_of (schema : string) : Parsed :=
  match parse schema with
  | inr p => p
  | inl _ => no_parse
  end.

Definition world_of (res : exn + (World * reply)) : World :=
  match res with
  | inr (w, _) => w
  | inl _ => empty_world
  end.

(** A document with 101 operations. *)
Definition big_schema : string := schema_with "openapi" 101.

(** [t1] replaces the schema of [weather] by the big one. *)
Definition update_big : exn + (World * reply) :=
  update_api_tool_provider env world1 "u1" "t1" "weather" "weather" ∅
    (api_key_credentials "secret1") "openapi" big_schema "" "" [].

(** [t1] tries to register the big schema as a new provider. *)
Definition create_big : exn + (World * reply) :=
  create_api_tool_provider env world1 "u1" "t1" "maps" ∅
    (api_key_credentials "secret1") "openapi" big_schema "" "" [].

(** [t1] renames [weather] to [pets] while [pets] exists. *)
Definition rename_to_taken : exn + (World * reply) :=
  update_api_tool_provider env world2 "u1" "t1" "pets" "weather" ∅
    (api_key_credentials "secret1") "openapi" petstore "" "" [].

Definition swagger_schema : string := "swagger:Pet store:getPet".

(** [t1] replaces the schema of [weather] by a swagger document. *)
Definition update_swagger : exn + (World * reply) :=
  update_api_tool_provider env world1 "u1" "t1" "weather" "weather" ∅
    (api_key_credentials "secret1") "swagger" swagger_schema "" "" [].

(** [t1] registers the same swagger document as a new provider. *)
Definition create_swagger : exn + (World * reply) :=
  create_api_tool_provider env world1 "u1" "t1" "maps" ∅
    (api_key_credentials "secret1") "swagger" swagger_schema "" "" [].

End DemoCases.

(** Requests to the preview. *)
Module DemoPreview.
Import Demo.

(** The controller the preview builds for the stored [weather] row. *)
Definition weather_controller : ApiToolProviderController :=
  load_bundled_tools (from_db DemoUpdate.weather_row API_KEY)
    (parsed_bundles DemoUpdate.petstore_parsed).

(** [t1] tests [getPet] of the stored [weather] with the given credentials. *)
Definition preview_weather (credentials : gmap string string) : exn + reply :=
  test_api_tool_preview env world1 "t1" "weather" "getPet" credentials ∅
    "openapi" petstore.

(** Credentials of an [api_key] provider without the key. *)
Definition keyless : gmap string string := {[ "auth_type" := "api_key" ]}.

(** The controller the preview builds for a provider that is not stored. *)
Definition draft_controller (credentials : gmap string string)
  : ApiToolProviderController :=
  load_bundled_tools
    (from_db (fake_db_provider env petstore
                (parsed_bundles DemoUpdate.petstore_parsed) credentials)
       API_KEY)
    (parsed_bundles DemoUpdate.petstore_parsed).

(** [t1] tests [getPet] of the unsaved provider [draft]. *)
Definition preview_draft (credentials : gmap string string) : exn + reply :=
  test_api_tool_preview env world1 "t1" "draft" "getPet" credentials ∅
    "openapi" petstore.

End DemoPreview.

(** ** Further definitions: stored rows, trimmed names, listing *)

(** The row the table holds for a new object: the object with the identity
    the table assigned at commit. *)
Definition with_id (k : nat) (p : ApiToolProvider) : ApiToolProvider :=
  {| id := Some k; tenant_id := tenant_id p; user_id := user_id p;
     name := name p; icon := icon p; schema := schema p;
     description := description p; schema_type_str := schema_type_str p;
     tools_str := tools_str p; credentials_str := credentials_str p;
     privacy_policy := privacy_policy p;
     custom_disclaimer := custom_disclaimer p |}.

(** Every stored name is its own [strip]. *)
Definition names_trimmed (w : World) : Prop :=
  Forall (fun p => strip (name p) = name p) (rows w).

(** What [list_api_tool_provider_tools] imports besides the table:
    the [tools] property of a record ([json.loads] of [tools_str], validated
    into bundles), [ToolTransformService.api_provider_to_controller],
    [ToolLabelManager.get_tool_labels] (which reads the label store) and
    [ToolTransformService.convert_tool_entity_to_api_entity]. *)
Record Transformers (ToolApiEntity : Type) : Type := {
  json_loads_bundles : string -> list ApiToolBundle;
  api_provider_to_controller : ApiToolProvider -> ApiToolProviderController;
  get_tool_labels : list event -> ApiToolProviderController -> list string;
  convert_tool_entity_to_api_entity :
    ApiToolBundle -> string -> list string -> ToolApiEntity
}.

Arguments json_loads_bundles {ToolApiEntity} _ _.
Arguments api_provider_to_controller {ToolApiEntity} _ _.
Arguments get_tool_labels {ToolApiEntity} _ _ _.
Arguments convert_tool_entity_to_api_entity {ToolApiEntity} _ _ _ _.

Definition list_api_tool_provider_tools {ToolApiEntity : Type}
    (L : Transformers ToolApiEntity) (w : World)
    (user_id tenant_id provider_name : string) : exn + list ToolApiEntity :=
  match query_first w tenant_id provider_name with
  | None =>
      raise (ValueError ("you have not added provider " +:+ provider_name))
  | Some (_, provider) =>
      let controller := api_provider_to_controller L provider in
      let labels := get_tool_labels L (effects w) controller in
      ret ((fun tool_bundle =>
              convert_tool_entity_to_api_entity L tool_bundle tenant_id labels)
             <$> json_loads_bundles L (tools_str provider))
  end.

(** Stand-ins for the listing, and further requests. *)
Module DemoListing.
Import Demo.

(** A display entity: operation, tenant and labels. *)
Definition display : Type := string * string * list string.

Definition loads_bundles (s : string) : list ApiToolBundle :=
  bundle <$> List.filter (fun op => negb (bool_decide (op = "")))
               (split_on "," s).

(** The labels last attached to a controller of that provider name. *)
Fixpoint labels_of (log : list event) (c : ApiToolProviderController)
  : list string :=
  match log with
  | [] => []
  | UpdateToolLabels c' labels :: log' =>
      if decide (name (entity c') = name (entity c)) then labels
      else labels_of log' c
  | CacheDelete _ _ :: log' => labels_of log' c
  end.

Definition transformers : Transformers display :=
  {| json_loads_bundles := loads_bundles;
     api_provider_to_controller := fun p => from_db p API_KEY;
     get_tool_labels := labels_of;
     convert_tool_entity_to_api_entity :=
       fun tb tenant labels => (operation_id tb, tenant, labels) |}.

(** A document with exactly 100 operations. *)
Definition full_schema : string := schema_with "openapi" 100.

(** [t1] registers a provider under a name with surrounding blanks. *)
Definition create_padded : exn + (World * reply) :=
  create_api_tool_provider env world1 "u1" "t1" "  maps " ∅
    (api_key_credentials "k") "openapi" petstore "" "" ["geo"].

(** [t1] renames [weather] to the free name [forecast]. *)
Definition rename_to_free : exn + (World * reply) :=
  update_api_tool_provider env world2 "u1" "t1" " forecast " "weather" ∅
    (api_key_credentials "secret1") "openapi" petstore "" "" [].

End DemoListing.

(** Dicts for the merge loop, and a live endpoint that answers nothing. *)
Module DemoMerge.
Import Demo.

Definition stored : gmap string string :=
  {[ "auth_type" := "api_key"; "api_key_header" := "X-Key";
     "api_key_value" := "secret1" ]}.

Definition stored_masked : gmap string string :=
  alter mask_value "api_key_value" stored.

(** The mask comes back, with a new header and auth type [none]. *)
Definition submitted : gmap string string :=
  {[ "auth_type" := "none"; "api_key_header" := "Authorization";
     "api_key_value" := mask_value "secret1" ]}.

Definition merged : gmap string string :=
  match save_original_credentials stored stored_masked submitted with
  | inr m => m
  | inl _ => ∅
  end.

(** A mask that has a key the plaintext lacks. *)
Definition lone_mask : gmap string string :=
  {[ "api_key_value" := "se***t1" ]}.

Definition quiet_env : Collaborators :=
  {| schema_type_values := schema_type_values env;
     OPENAPI_value := OPENAPI_value env;
     value_of := value_of env;
     auto_parse_to_tool_bundle := auto_parse_to_tool_bundle env;
     json_dumps := json_dumps env;
     json_dumps_bundles := json_dumps_bundles env;
     json_loads := json_loads env;
     create_tool_provider_encrypter := create_tool_provider_encrypter env;
     validate_credentials_format := validate_credentials_format env;
     get_tool := get_tool env;
     validate_credentials := fun _ _ _ => ret "";
     get := get env |}.

End DemoMerge.
(** ** Properties of the merge loop *)

Lemma foldl_keep_original_raise original masked e l :
  foldl (keep_original original masked) (inl e) l = inl e.
Proof. induction l as [|item l IH]; [done|]. exact IH. Qed.

Lemma foldl_keep_original original masked l :
  forall acc merged,
    NoDup l.*1 ->
    foldl (keep_original original masked) (inr acc) l = inr merged ->
    forall name : string,
      (forall value, (name, value) ∈ l ->
         merged !! name =
           if decide (masked !! name = Some value) then original !! name
           else acc !! name)
      /\ (name ∉ l.*1 -> merged !! name = acc !! name).
Proof.
  induction l as [|[k v] l IH]; intros acc merged Hnd Hfold name.
  - simpl in Hfold. inversion Hfold; subst. split; [|done].
    intros value Hin. by apply elem_of_nil in Hin.
  - apply NoDup_cons in Hnd as [Hk Hnd]. simpl in Hk.
    change (foldl (keep_original original masked)
              (keep_original original masked (inr acc) (k, v)) l = inr merged)
      in Hfold.
    destruct (keep_original original masked (inr acc) (k, v))
      as [e|acc'] eqn:Hstep;
      [by rewrite foldl_keep_original_raise in Hfold|].
    assert (acc' !! k = (if decide (masked !! k = Some v) then original !! k
                         else acc !! k)
            /\ forall n, n ≠ k -> acc' !! n = acc !! n) as [Hat Hframe].
    { unfold keep_original in Hstep; simpl in Hstep.
      destruct (masked !! k) as [m|] eqn:Hm.
      - destruct (decide (v = m)) as [->|Hne].
        + destruct (original !! k) as [o|] eqn:Ho; [|done].
          inversion Hstep; subst. split.
          * rewrite lookup_insert_eq. by rewrite decide_True.
          * intros n Hn. by rewrite lookup_insert_ne.
        + inversion Hstep; subst. split; [|done].
          rewrite decide_False; [done|congruence].
      - inversion Hstep; subst. split; [|done]. by rewrite decide_False. }
    destruct (IH acc' merged Hnd Hfold name) as [IHin IHout]. split.
    + intros value Hin. apply elem_of_cons in Hin as [Heq|Hin].
      * inversion Heq; subst. rewrite IHout; [done|]. exact Hk.
      * assert (name ≠ k) as Hne.
        { intros ->. apply Hk. apply list_elem_of_fmap.
          by exists (k, value). }
        rewrite (IHin value Hin). by rewrite (Hframe name Hne).
    + intros Hout. rewrite fmap_cons in Hout. simpl in Hout.
      apply not_elem_of_cons in Hout as [Hne Hout].
      rewrite (IHout Hout). by apply Hframe.
Qed.

(** Field by field, the merged dict holds the stored plaintext where the
    submitted value is the mask, and the submitted value elsewhere. *)
Lemma save_original_credentials_lookup original masked credentials merged :
  save_original_credentials original masked credentials = inr merged ->
  forall name : string,
    merged !! name =
      match credentials !! name with
      | Some value =>
          if decide (masked !! name = Some value) then original !! name
          else Some value
      | None => None
      end.
Proof.
  unfold save_original_credentials. intros Hfold name.
  pose proof (foldl_keep_original original masked (map_to_list credentials)
                credentials merged (NoDup_fst_map_to_list credentials) Hfold
                name) as [Hin Hout].
  destruct (credentials !! name) as [value|] eqn:Hc.
  - by rewrite (Hin value); [|apply elem_of_map_to_list].
  - rewrite Hout; [done|].
    intros Hel. apply list_elem_of_fmap in Hel as ([k v] & -> & Hel).
    apply elem_of_map_to_list in Hel. simpl in Hc. congruence.
Qed.

(** The loop raises only when the mask has a key the plaintext lacks. *)
Lemma save_original_credentials_total original masked credentials :
  (forall name : string, is_Some (masked !! name) -> is_Some (original !! name)) ->
  exists merged,
    save_original_credentials original masked credentials = inr merged.
Proof.
  intros Hdom. unfold save_original_credentials.
  generalize credentials at 1. 
  induction (map_to_list credentials) as [|[k v] l IH]; intros acc.
  - by exists acc.
  - change (exists merged,
              foldl (keep_original original masked)
                (keep_original original masked (inr acc) (k, v)) l
              = inr merged).
    assert (exists acc', keep_original original masked (inr acc) (k, v)
                         = inr acc') as [acc' ->]; [|apply IH].
    unfold keep_original; simpl.
    destruct (masked !! k) as [m|] eqn:Hm; [|by eexists].
    destruct (decide (v = m)); [|by eexists].
    destruct (Hdom k) as [o Ho]; [by rewrite Hm|].
    rewrite Ho. by eexists.
Qed.

(** ** [strip] *)

Example strip_surrounding_whitespace : strip "  weather " = "weather".
Proof. reflexivity. Qed.

Example strip_keeps_inner_whitespace : strip " my  api " = "my  api".
Proof. reflexivity. Qed.

Lemma lstrip_idempotent s : lstrip (lstrip s) = lstrip s.
Proof.
  induction s as [|c s IH]; [done|]. simpl.
  destruct (isspace c) eqn:Hc; [done|]. simpl. by rewrite Hc.
Qed.

(** ** Facts about the table *)

Lemma query_first_Some w t n i p :
  query_first w t n = Some (i, p) ->
  rows w !! i = Some p /\ tenant_id p = t /\ name p = n.
Proof.
  unfold query_first. intros H.
  apply list_find_Some in H as (Hi & [Ht Hn] & _). done.
Qed.

Lemma query_first_None w t n :
  query_first w t n = None <->
  forall p, p ∈ rows w -> ~ (tenant_id p = t /\ name p = n).
Proof.
  unfold query_first. rewrite list_find_None, Forall_forall. done.
Qed.

Lemma query_first_is_Some w t n p :
  p ∈ rows w -> tenant_id p = t -> name p = n ->
  is_Some (query_first w t n).
Proof.
  intros Hin Ht Hn. destruct (query_first w t n) eqn:Hq; [done|].
  exfalso. eapply query_first_None in Hq; eauto.
Qed.


(** ** The commits and the unique constraint *)

Lemma taken_query_first w p :
  taken p (rows w) <-> is_Some (query_first w (tenant_id p) (name p)).
Proof.
  unfold taken. split.
  - intros Hin. apply list_elem_of_fmap in Hin as (q & Hkey & Hin).
    injection Hkey as Ht Hn. by apply (query_first_is_Some _ _ _ q).
  - intros [[i q] Hq]. apply query_first_Some in Hq as (Hi & Ht & Hn).
    apply list_elem_of_fmap. exists q. split; [congruence|].
    by eapply list_elem_of_lookup_2.
Qed.

(** After the lookup of create found nothing, the commit is not refused. *)
Lemma commit_new_free w p :
  query_first w (tenant_id p) (name p) = None ->
  commit_new w p = inr (append_row w p).
Proof.
  intros Hq. unfold commit_new. rewrite decide_False; [done|].
  intros Htaken. apply taken_query_first in Htaken as [found Hfound].
  congruence.
Qed.

Lemma commit_row_inr w i p w' :
  commit_row w i p = inr w' ->
  w' = write_row w i p /\ ~ taken p (delete i (rows w)).
Proof.
  unfold commit_row. destruct (decide _); [done|]. intros H.
  by inversion H.
Qed.

Lemma commit_row_free w i p :
  ~ taken p (delete i (rows w)) ->
  commit_row w i p = inr (write_row w i p).
Proof. intros H. unfold commit_row. by rewrite decide_False. Qed.

Lemma commit_row_taken w i p :
  taken p (delete i (rows w)) ->
  commit_row w i p = inl UniqueViolation.
Proof. intros H. unfold commit_row. by rewrite decide_True. Qed.

(** Once the lookups of its first half succeed, the update is the merge loop
    followed by the commit. *)
Lemma update_api_tool_provider_steps E w user_id tenant_id provider_name
    original_provider icon credentials schema_type schema privacy_policy
    custom_disclaimer labels i provider parsed a auth :
  recognized E schema_type = true ->
  query_first w tenant_id original_provider = Some (i, provider) ->
  convert_schema_to_tool_bundles E schema = inr parsed ->
  credentials !! "auth_type" = Some a ->
  value_of E a = inr auth ->
  update_api_tool_provider E w user_id tenant_id provider_name
    original_provider icon credentials schema_type schema privacy_policy
    custom_disclaimer labels
  = let* merged :=
      save_original_credentials
        (stored_plaintext E provider tenant_id provider_name icon schema
           privacy_policy custom_disclaimer parsed auth)
        (stored_mask E provider tenant_id provider_name icon schema
           privacy_policy custom_disclaimer parsed auth)
        credentials in
    let* _ :=
      commit_row w i
        (update_record E provider tenant_id provider_name icon schema
           privacy_policy custom_disclaimer parsed auth merged) in
    ret (update_world E provider tenant_id provider_name icon schema
           privacy_policy custom_disclaimer parsed auth w i labels merged,
         Result "success").
Proof.
  intros Hrec Hq Hparse Ha Hauth. unfold update_api_tool_provider.
  rewrite Hrec, Hq, Hparse. simpl. rewrite Ha, Hauth. simpl.
  destruct (save_original_credentials _ _ credentials) as [e|merged];
    [done|].
  simpl. unfold commit_row. by destruct (decide _).
Qed.

(** A successful update went through every step. *)
Lemma update_api_tool_provider_inv E w user_id tenant_id provider_name
    original_provider icon credentials schema_type schema privacy_policy
    custom_disclaimer labels w' r :
  update_api_tool_provider E w user_id tenant_id provider_name
    original_provider icon credentials schema_type schema privacy_policy
    custom_disclaimer labels = inr (w', r) ->
  exists i provider parsed a auth merged,
    recognized E schema_type = true
    /\ query_first w tenant_id original_provider = Some (i, provider)
    /\ convert_schema_to_tool_bundles E schema = inr parsed
    /\ credentials !! "auth_type" = Some a
    /\ value_of E a = inr auth
    /\ save_original_credentials
         (stored_plaintext E provider tenant_id provider_name icon schema
            privacy_policy custom_disclaimer parsed auth)
         (stored_mask E provider tenant_id provider_name icon schema
            privacy_policy custom_disclaimer parsed auth)
         credentials = inr merged
    /\ w' = update_world E provider tenant_id provider_name icon schema
              privacy_policy custom_disclaimer parsed auth w i labels merged
    /\ r = Result "success"
    /\ ~ taken
          (update_record E provider tenant_id provider_name icon schema
             privacy_policy custom_disclaimer parsed auth merged)
          (delete i (rows w)).
Proof.
  intros H.
  destruct (recognized E schema_type) eqn:Hrec;
    [|by unfold update_api_tool_provider in H; rewrite Hrec in H].
  destruct (query_first w tenant_id original_provider) as [[i provider]|]
    eqn:Hq; [|by unfold update_api_tool_provider in H; rewrite Hrec, Hq in H].
  destruct (convert_schema_to_tool_bundles E schema) as [e|parsed] eqn:Hparse;
    [by unfold update_api_tool_provider in H; rewrite Hrec, Hq, Hparse in H|].
  destruct (credentials !! "auth_type") as [a|] eqn:Ha;
    [|by unfold update_api_tool_provider in H;
         rewrite Hrec, Hq, Hparse in H; simpl in H; rewrite Ha in H].
  destruct (value_of E a) as [e|auth] eqn:Hauth;
    [by unfold update_api_tool_provider in H;
        rewrite Hrec, Hq, Hparse in H; simpl in H; rewrite Ha, Hauth in H|].
  rewrite (update_api_tool_provider_steps E w user_id tenant_id provider_name
             original_provider icon credentials schema_type schema
             privacy_policy custom_disclaimer labels i provider parsed a auth
             Hrec Hq Hparse Ha Hauth) in H.
  destruct (save_original_credentials _ _ credentials) as [e|merged] eqn:Hm;
    [done|].
  simpl in H.
  destruct (commit_row w i _) as [e|w1] eqn:Hcommit; [done|].
  apply commit_row_inr in Hcommit as [_ Hfree].
  simpl in H. inversion H; subst.
  exists i, provider, parsed, a, auth, merged. done.
Qed.

(** ** Update: the merge-on-update rule *)

(** C1. On a successful [update_api_tool_provider], the credentials that are
    encrypted and written to the record are the submitted ones in which every
    field whose submitted value equals the masked form of the stored value
    has been replaced by the stored plaintext; every field whose submitted
    value differs from the mask keeps the submitted value, and no field is
    added. *)
Theorem update_merge_on_update_rule E w user_id tenant_id provider_name
    original_provider icon credentials schema_type schema privacy_policy
    custom_disclaimer labels w' r i provider parsed a auth :
  query_first w tenant_id original_provider = Some (i, provider) ->
  convert_schema_to_tool_bundles E schema = inr parsed ->
  credentials !! "auth_type" = Some a ->
  value_of E a = inr auth ->
  update_api_tool_provider E w user_id tenant_id provider_name
    original_provider icon credentials schema_type schema privacy_policy
    custom_disclaimer labels = inr (w', r) ->
  let encrypter :=
    update_encrypter E provider tenant_id provider_name icon schema
      privacy_policy custom_disclaimer parsed auth in
  let original :=
    stored_plaintext E provider tenant_id provider_name icon schema
      privacy_policy custom_disclaimer parsed auth in
  let masked :=
    stored_mask E provider tenant_id provider_name icon schema
      privacy_policy custom_disclaimer parsed auth in
  exists (merged : gmap string string) (stored : ApiToolProvider),
    rows w' !! i = Some stored
    /\ credentials_str stored = json_dumps E (encrypt encrypter merged)
    /\ (forall name value,
          credentials !! name = Some value ->
          (masked !! name = Some value -> merged !! name = original !! name)
          /\ (masked !! name ≠ Some value -> merged !! name = Some value))
    /\ (forall name, credentials !! name = None -> merged !! name = None).
Proof.
  intros Hq Hparse Ha Hauth Hupd encrypter original masked.
  apply update_api_tool_provider_inv in Hupd
    as (i' & provider' & parsed' & a' & auth' & merged
        & _ & Hq' & Hparse' & Ha' & Hauth' & Hmerge & -> & _).
  rewrite Hq in Hq'. rewrite Hparse in Hparse'. rewrite Ha in Ha'.
  inversion Hq'; inversion Hparse'; inversion Ha'; subst i' provider' parsed' a'.
  rewrite Hauth in Hauth'. inversion Hauth'; subst auth'.
  pose proof (save_original_credentials_lookup _ _ _ _ Hmerge) as Hlook.
  exists merged.
  exists (update_record E provider tenant_id provider_name icon schema
            privacy_policy custom_disclaimer parsed auth merged).
  split; [|split; [done|split]].
  - simpl. apply list_lookup_insert_eq.
    apply query_first_Some in Hq as [Hi _]. by eapply lookup_lt_Some.
  - intros name value Hc. rewrite (Hlook name), Hc. fold original masked.
    split; intros Hm.
    + by rewrite decide_True.
    + by rewrite decide_False.
  - intros name Hc. by rewrite (Hlook name), Hc.
Qed.


Example update_with_mask_keeps_secret1 :
  credentials_str <$> rows (DemoUpdate.world_after DemoUpdate.resubmitted) !! 0
  = Some "auth_type=api_key;api_key_value=enc:secret1;".
Proof. vm_compute. reflexivity. Qed.

Example update_with_secret2_stores_secret2 :
  credentials_str
    <$> rows (DemoUpdate.world_after (Demo.api_key_credentials "secret2")) !! 0
  = Some "auth_type=api_key;api_key_value=enc:secret2;".
Proof. vm_compute. reflexivity. Qed.

Lemma update_merge_on_update_rule_witness :
  let encrypter :=
    update_encrypter Demo.env DemoUpdate.weather_row "t1" "weather" ∅
      Demo.petstore "" "" DemoUpdate.petstore_parsed API_KEY in
  let original :=
    stored_plaintext Demo.env DemoUpdate.weather_row "t1" "weather" ∅
      Demo.petstore "" "" DemoUpdate.petstore_parsed API_KEY in
  let masked :=
    stored_mask Demo.env DemoUpdate.weather_row "t1" "weather" ∅
      Demo.petstore "" "" DemoUpdate.petstore_parsed API_KEY in
  exists (merged : gmap string string) (stored : ApiToolProvider),
    rows (DemoUpdate.world_after DemoUpdate.resubmitted) !! 0 = Some stored
    /\ credentials_str stored = json_dumps Demo.env (encrypt encrypter merged)
    /\ (forall name value,
          DemoUpdate.resubmitted !! name = Some value ->
          (masked !! name = Some value -> merged !! name = original !! name)
          /\ (masked !! name ≠ Some value -> merged !! name = Some value))
    /\ (forall name, DemoUpdate.resubmitted !! name = None ->
                     merged !! name = None).
Proof.
  apply (update_merge_on_update_rule Demo.env Demo.world1 "u1" "t1" "weather"
           "weather" ∅ DemoUpdate.resubmitted "openapi" Demo.petstore "" "" []
           (DemoUpdate.world_after DemoUpdate.resubmitted) (Result "success")
           0 DemoUpdate.weather_row DemoUpdate.petstore_parsed "api_key"
           API_KEY);
    vm_compute; reflexivity.
Defined.

(** ** Create *)

Lemma create_api_tool_provider_steps E w user_id tenant_id provider_name icon
    credentials schema_type schema privacy_policy custom_disclaimer labels
    parsed a auth :
  recognized E schema_type = true ->
  query_first w tenant_id (strip provider_name) = None ->
  convert_schema_to_tool_bundles E schema = inr parsed ->
  length (parsed_bundles parsed) <= 100 ->
  credentials !! "auth_type" = Some a ->
  value_of E a = inr auth ->
  create_api_tool_provider E w user_id tenant_id provider_name icon
    credentials schema_type schema privacy_policy custom_disclaimer labels
  = inr (create_world E user_id tenant_id provider_name icon credentials
           schema privacy_policy custom_disclaimer parsed auth w labels,
         Result "success").
Proof.
  intros Hrec Hq Hparse Hlen Ha Hauth. unfold create_api_tool_provider.
  rewrite Hrec, Hq, Hparse. simpl.
  destruct (Nat.ltb_spec 100 (length (parsed_bundles parsed))) as [Hgt|_];
    [lia|].
  rewrite Ha, Hauth. simpl. by rewrite commit_new_free.
Qed.

Lemma create_api_tool_provider_inv E w user_id tenant_id provider_name icon
    credentials schema_type schema privacy_policy custom_disclaimer labels
    w' r :
  create_api_tool_provider E w user_id tenant_id provider_name icon
    credentials schema_type schema privacy_policy custom_disclaimer labels
  = inr (w', r) ->
  exists parsed a auth,
    recognized E schema_type = true
    /\ query_first w tenant_id (strip provider_name) = None
    /\ convert_schema_to_tool_bundles E schema = inr parsed
    /\ length (parsed_bundles parsed) <= 100
    /\ credentials !! "auth_type" = Some a
    /\ value_of E a = inr auth
    /\ w' = create_world E user_id tenant_id provider_name icon credentials
              schema privacy_policy custom_disclaimer parsed auth w labels
    /\ r = Result "success".
Proof.
  unfold create_api_tool_provider. intros H.
  destruct (recognized E schema_type) eqn:Hrec; [|done]. simpl in H.
  destruct (query_first w tenant_id (strip provider_name)) eqn:Hq; [done|].
  destruct (convert_schema_to_tool_bundles E schema) as [e|parsed] eqn:Hparse;
    [done|]. simpl in H.
  destruct (Nat.ltb_spec 100 (length (parsed_bundles parsed))) as [Hgt|Hle];
    [done|].
  destruct (credentials !! "auth_type") as [a|] eqn:Ha; [|done].
  destruct (value_of E a) as [e|auth] eqn:Hauth; [done|]. simpl in H.
  rewrite commit_new_free in H by exact Hq.
  inversion H; subst. exists parsed, a, auth. done.
Qed.

(** The limit check of create: more than 100 bundles are refused. *)
Lemma create_api_tool_provider_limit E w user_id tenant_id provider_name icon
    credentials schema_type schema privacy_policy custom_disclaimer labels
    parsed :
  recognized E schema_type = true ->
  query_first w tenant_id (strip provider_name) = None ->
  convert_schema_to_tool_bundles E schema = inr parsed ->
  100 < length (parsed_bundles parsed) ->
  create_api_tool_provider E w user_id tenant_id provider_name icon
    credentials schema_type schema privacy_policy custom_disclaimer labels
  = inl LimitExceededError.
Proof.
  intros Hrec Hq Hparse Hlen. unfold create_api_tool_provider.
  rewrite Hrec, Hq, Hparse. simpl.
  destruct (Nat.ltb_spec 100 (length (parsed_bundles parsed))) as [_|Hle];
    [done|lia].
Qed.

Lemma rows_create_world E user tenant provider_name icon credentials
    schema privacy_policy custom_disclaimer parsed auth w labels :
  exists row,
    rows (create_world E user tenant provider_name icon credentials
            schema privacy_policy custom_disclaimer parsed auth w labels)
    = (rows w ++ [row])%list
    /\ tenant_id row = tenant /\ name row = strip provider_name
    /\ id row = Some (next_id w).
Proof. eexists. split; [reflexivity|]. done. Qed.

(** Create keeps tenant and name unique. *)
Lemma create_api_tool_provider_unique_names E w user_id tenant_id provider_name
    icon credentials schema_type schema privacy_policy custom_disclaimer
    labels w' r :
  unique_names w ->
  create_api_tool_provider E w user_id tenant_id provider_name icon
    credentials schema_type schema privacy_policy custom_disclaimer labels
  = inr (w', r) ->
  unique_names w'.
Proof.
  intros Huniq H.
  apply create_api_tool_provider_inv in H
    as (parsed & a & auth & _ & Hq & _ & _ & _ & _ & -> & _).
  destruct (rows_create_world E user_id tenant_id provider_name icon
              credentials schema privacy_policy custom_disclaimer parsed auth
              w labels) as (row & Hrows & Ht & Hn & _).
  unfold unique_names in *. rewrite Hrows, fmap_app. simpl.
  apply NoDup_app. split; [done|]. split; [|apply NoDup_singleton].
  intros [t n] Hin Hin'. apply list_elem_of_singleton in Hin'.
  apply list_elem_of_fmap in Hin as (p & Hp & Hin).
  inversion Hp; inversion Hin'; subst.
  eapply query_first_None in Hq; [|exact Hin]. apply Hq. split; congruence.
Qed.

(** Delete keeps tenant and name unique. *)
Lemma delete_api_tool_provider_unique_names w user_id tenant_id provider_name
    w' r :
  unique_names w ->
  delete_api_tool_provider w user_id tenant_id provider_name = inr (w', r) ->
  unique_names w'.
Proof.
  unfold delete_api_tool_provider, unique_names. intros Huniq H.
  destruct (query_first w tenant_id provider_name) as [[i p]|]; [|done].
  inversion H; subst. simpl.
  eapply sublist_NoDup; [exact Huniq|].
  apply fmap_sublist, sublist_delete.
Qed.

Lemma query_first_create_world_same E user tenant provider_name icon
    credentials schema privacy_policy custom_disclaimer parsed auth w labels :
  is_Some
    (query_first
       (create_world E user tenant provider_name icon credentials schema
          privacy_policy custom_disclaimer parsed auth w labels)
       tenant (strip provider_name)).
Proof.
  destruct (rows_create_world E user tenant provider_name icon credentials
              schema privacy_policy custom_disclaimer parsed auth w labels)
    as (row & Hrows & Ht & Hn & _).
  apply (query_first_is_Some _ _ _ row); [|done..].
  rewrite Hrows. apply elem_of_app. right. by apply list_elem_of_singleton.
Qed.

Lemma query_first_create_world_other E user tenant provider_name icon
    credentials schema privacy_policy custom_disclaimer parsed auth w labels
    t n :
  t ≠ tenant ->
  query_first w t n = None ->
  query_first
    (create_world E user tenant provider_name icon credentials schema
       privacy_policy custom_disclaimer parsed auth w labels) t n = None.
Proof.
  intros Hne Hq.
  destruct (rows_create_world E user tenant provider_name icon credentials
              schema privacy_policy custom_disclaimer parsed auth w labels)
    as (row & Hrows & Ht & Hn & _).
  apply query_first_None. intros p Hin [Hpt Hpn].
  rewrite Hrows in Hin. apply elem_of_app in Hin as [Hin|Hin].
  - eapply query_first_None in Hq; [|exact Hin]. by apply Hq.
  - apply list_elem_of_singleton in Hin. subst p. congruence.
Qed.

(** C5. After a successful create of a provider under a tenant, a second
    create under the same tenant whose name trims to the same string fails
    with the conflict error, whatever its other arguments (its schema type
    being a recognized one, which is checked first); the same request under
    another tenant that has no provider of that name succeeds. *)
Theorem create_name_conflict_is_per_tenant E w user tenant provider_name icon
    credentials schema_type schema privacy_policy custom_disclaimer labels
    w1 r :
  create_api_tool_provider E w user tenant provider_name icon credentials
    schema_type schema privacy_policy custom_disclaimer labels = inr (w1, r) ->
  (forall user2 provider_name2 icon2 credentials2 schema_type2 schema2
          privacy_policy2 custom_disclaimer2 labels2,
      strip provider_name2 = strip provider_name ->
      recognized E schema_type2 = true ->
      create_api_tool_provider E w1 user2 tenant provider_name2 icon2
        credentials2 schema_type2 schema2 privacy_policy2 custom_disclaimer2
        labels2 = inl (ConflictError (strip provider_name)))
  /\ (forall user2 tenant2 labels2,
        tenant2 ≠ tenant ->
        query_first w tenant2 (strip provider_name) = None ->
        exists w2,
          create_api_tool_provider E w1 user2 tenant2 provider_name icon
            credentials schema_type schema privacy_policy custom_disclaimer
            labels2 = inr (w2, Result "success")).
Proof.
  intros Hfirst.
  apply create_api_tool_provider_inv in Hfirst
    as (parsed & a & auth & Hrec & Hq & Hparse & Hlen & Ha & Hauth & -> & _).
  split.
  - intros user2 provider_name2 icon2 credentials2 schema_type2 schema2
      privacy_policy2 custom_disclaimer2 labels2 Hname Hrec2.
    unfold create_api_tool_provider. rewrite Hrec2, Hname. simpl.
    destruct (query_first_create_world_same E user tenant provider_name icon
                credentials schema privacy_policy custom_disclaimer parsed
                auth w labels) as [found ->].
    reflexivity.
  - intros user2 tenant2 labels2 Hne Hfree. eexists.
    apply (create_api_tool_provider_steps E _ user2 tenant2 provider_name icon
             credentials schema_type schema privacy_policy custom_disclaimer
             labels2 parsed a auth); try done.
    by apply query_first_create_world_other.
Qed.

Lemma create_name_conflict_is_per_tenant_witness :
  create_api_tool_provider Demo.env Demo.world1 "u2" "t1" "  weather " ∅
    (Demo.api_key_credentials "other") "swagger" DemoCases.swagger_schema
    "" "" [] = inl (ConflictError "weather")
  /\ exists w2,
       create_api_tool_provider Demo.env Demo.world1 "u9" "t2" "weather" ∅
         (Demo.api_key_credentials "secret1") "openapi" Demo.petstore "" ""
         ["maps"] = inr (w2, Result "success").
Proof.
  assert (create_api_tool_provider Demo.env Demo.empty_world "u1" "t1"
            "weather" ∅ (Demo.api_key_credentials "secret1") "openapi"
            Demo.petstore "" "" [] = inr (Demo.world1, Result "success"))
    as Hfirst by (vm_compute; reflexivity).
  destruct (create_name_conflict_is_per_tenant _ _ _ _ _ _ _ _ _ _ _ _ _ _
              Hfirst) as [Hsame Hother].
  split.
  - apply (Hsame "u2" "  weather " ∅ (Demo.api_key_credentials "other")
             "swagger" DemoCases.swagger_schema "" "" []);
      vm_compute; reflexivity.
  - apply (Hother "u9" "t2" ["maps"]); [done|vm_compute; reflexivity].
Defined.

(** ** Update: what it checks and what it writes *)

(** Update succeeds whenever its lookups do, the mask has no key the
    plaintext lacks and no other row has the tenant and the new name; the
    number of compiled bundles plays no part. *)
Lemma update_api_tool_provider_succeeds E w user_id tenant_id provider_name
    original_provider icon credentials schema_type schema privacy_policy
    custom_disclaimer labels i provider parsed a auth :
  recognized E schema_type = true ->
  query_first w tenant_id original_provider = Some (i, provider) ->
  convert_schema_to_tool_bundles E schema = inr parsed ->
  credentials !! "auth_type" = Some a ->
  value_of E a = inr auth ->
  (forall name : string,
     is_Some (stored_mask E provider tenant_id provider_name icon schema
                privacy_policy custom_disclaimer parsed auth !! name) ->
     is_Some (stored_plaintext E provider tenant_id provider_name icon schema
                privacy_policy custom_disclaimer parsed auth !! name)) ->
  ~ taken (update_fields E provider provider_name icon schema privacy_policy
             custom_disclaimer parsed) (delete i (rows w)) ->
  exists merged,
    update_api_tool_provider E w user_id tenant_id provider_name
      original_provider icon credentials schema_type schema privacy_policy
      custom_disclaimer labels
    = inr (update_world E provider tenant_id provider_name icon schema
             privacy_policy custom_disclaimer parsed auth w i labels merged,
           Result "success").
Proof.
  intros Hrec Hq Hparse Ha Hauth Hdom Hfree.
  destruct (save_original_credentials_total _ _ credentials Hdom)
    as [merged Hmerge].
  exists merged.
  rewrite (update_api_tool_provider_steps E w user_id tenant_id provider_name
             original_provider icon credentials schema_type schema
             privacy_policy custom_disclaimer labels i provider parsed a auth
             Hrec Hq Hparse Ha Hauth).
  rewrite Hmerge. simpl. by rewrite commit_row_free.
Qed.

(** The row written by a successful update: identity, tenant and owner are
    those of the row that was found; the schema type is the OPENAPI constant;
    every other field comes from the request. *)
Lemma update_api_tool_provider_row E w user tenant provider_name
    original_provider icon_dict credentials schema_type schema_text policy
    disclaimer labels w' r :
  update_api_tool_provider E w user tenant provider_name original_provider
    icon_dict credentials schema_type schema_text policy disclaimer labels
  = inr (w', r) ->
  exists i old new parsed,
    query_first w tenant original_provider = Some (i, old)
    /\ convert_schema_to_tool_bundles E schema_text = inr parsed
    /\ rows w' = <[i := new]> (rows w)
    /\ id new = id old /\ tenant_id new = tenant_id old
    /\ user_id new = user_id old
    /\ name new = strip provider_name
    /\ icon new = json_dumps E icon_dict
    /\ schema new = schema_text
    /\ description new = extra_info_description parsed
    /\ tools_str new = json_dumps_bundles E (parsed_bundles parsed)
    /\ privacy_policy new = policy
    /\ custom_disclaimer new = disclaimer
    /\ schema_type_str new = OPENAPI_value E.
Proof.
  intros H.
  apply update_api_tool_provider_inv in H
    as (i & old & parsed & a & auth & merged
        & _ & Hq & Hparse & _ & _ & _ & -> & _).
  exists i, old.
  exists (update_record E old tenant provider_name icon_dict schema_text policy
            disclaimer parsed auth merged), parsed.
  repeat split; done.
Qed.

(** C3. A provider may hold at most 100 bundles.  Create enforces it, update
    does not: on a schema compiling to 101 bundles create fails with the
    limit error, while update succeeds and stores the 101 bundles. *)
Example update_accepts_101_bundles :
  length (parsed_bundles (DemoCases.parsed_of DemoCases.big_schema)) = 101
  /\ DemoCases.create_big = inl LimitExceededError
  /\ (exists w', DemoCases.update_big = inr (w', Result "success"))
  /\ tools_str <$> rows (DemoCases.world_of DemoCases.update_big) !! 0
     = Some (json_dumps_bundles Demo.env
               (parsed_bundles (DemoCases.parsed_of DemoCases.big_schema))).
Proof.
  split; [vm_compute; reflexivity|].
  split; [vm_compute; reflexivity|].
  split; [|vm_compute; reflexivity].
  exists (DemoCases.world_of DemoCases.update_big). vm_compute. reflexivity.
Qed.

(** Update does not look for a row that already has the new name; the
    commit does.  Renaming [weather] to the name of the existing [pets] is
    refused by the table, and the table stays as it was. *)
Example update_rename_to_taken_is_refused :
  unique_names Demo.world2
  /\ DemoCases.rename_to_taken = inl UniqueViolation.
Proof.
  split; [apply (bool_decide_unpack (unique_names Demo.world2));
          vm_compute; exact I|].
  vm_compute. reflexivity.
Qed.

(** C6. Update replaces the fields of the row, but the schema type it stores
    is the constant OPENAPI: for a swagger document submitted as [swagger] the
    row says [openapi], where create stores [swagger]. *)
Example update_stores_openapi_for_swagger :
  parsed_schema_type (DemoCases.parsed_of DemoCases.swagger_schema) = "swagger"
  /\ (exists w', DemoCases.update_swagger = inr (w', Result "success"))
  /\ schema_type_str <$> rows (DemoCases.world_of DemoCases.update_swagger) !! 0
     = Some "openapi"
  /\ schema <$> rows (DemoCases.world_of DemoCases.update_swagger) !! 0
     = Some DemoCases.swagger_schema
  /\ schema_type_str <$> rows (DemoCases.world_of DemoCases.create_swagger) !! 1
     = Some "swagger".
Proof.
  split; [vm_compute; reflexivity|].
  split; [exists (DemoCases.world_of DemoCases.update_swagger);
          vm_compute; reflexivity|].
  repeat split; vm_compute; reflexivity.
Qed.

Lemma NoDup_insert_only_at {A} (l : list A) (i : nat) (y : A) :
  NoDup l ->
  (forall j, l !! j = Some y -> j = i) ->
  NoDup (<[i := y]> l).
Proof.
  intros Hnd Honly. apply NoDup_alt. intros a b x Ha Hb.
  apply list_lookup_insert_Some in Ha as [(-> & -> & _)|[Hai Ha]];
    apply list_lookup_insert_Some in Hb as [(-> & Hx & _)|[Hbi Hb]].
  - done.
  - symmetry. by apply Honly.
  - subst x. by apply Honly.
  - eapply NoDup_alt; eauto.
Qed.

(** Update keeps tenant and name unique when the new name is not the name of
    another provider of the tenant. *)
Lemma update_api_tool_provider_unique_names E w user tenant provider_name
    original_provider icon_dict credentials schema_type schema_text policy
    disclaimer labels w' r :
  unique_names w ->
  (forall p, p ∈ rows w -> tenant_id p = tenant ->
             name p = strip provider_name -> name p = original_provider) ->
  update_api_tool_provider E w user tenant provider_name original_provider
    icon_dict credentials schema_type schema_text policy disclaimer labels
  = inr (w', r) ->
  unique_names w'.
Proof.
  intros Huniq Hfree H.
  apply update_api_tool_provider_row in H
    as (i & old & new & parsed & Hq & _ & Hrows & _ & Ht & _ & Hn & _).
  apply query_first_Some in Hq as (Hi & Hot & Hon).
  unfold unique_names in *. rewrite Hrows, list_fmap_insert.
  apply NoDup_insert_only_at; [done|].
  intros j Hj. apply list_lookup_fmap_Some in Hj as (p & Hkey & Hp).
  injection Hkey as Hpt Hpn.
  assert (name p = original_provider) as Hpo.
  { apply Hfree; [by eapply list_elem_of_lookup_2|congruence..]. }
  eapply (proj1 (NoDup_alt _) Huniq j i (tenant_id p, name p)).
  - by rewrite list_lookup_fmap, Hp.
  - rewrite list_lookup_fmap, Hi. simpl. congruence.
Qed.

Lemma elem_of_delete_other {A} (l : list A) (i j : nat) (x : A) :
  l !! j = Some x -> j ≠ i -> x ∈ delete i l.
Proof.
  intros Hj Hne. destruct (decide (j < i)).
  - apply (list_elem_of_lookup_2 _ j). by rewrite list_lookup_delete_lt.
  - apply (list_elem_of_lookup_2 _ (pred j)).
    rewrite list_lookup_delete_ge by lia.
    replace (S (pred j)) with j by lia. done.
Qed.

Lemma elem_of_delete_lookup {A} (l : list A) (i : nat) (x : A) :
  x ∈ delete i l -> exists j, j ≠ i /\ l !! j = Some x.
Proof.
  intros Hin. apply list_elem_of_lookup in Hin as [j Hj].
  destruct (decide (j < i)).
  - exists j. split; [lia|]. by rewrite list_lookup_delete_lt in Hj.
  - exists (S j). split; [lia|]. by rewrite list_lookup_delete_ge in Hj by lia.
Qed.

(** The constraint makes every successful update keep tenant and name
    unique, whatever the new name. *)
Lemma update_api_tool_provider_keeps_unique_names E w user tenant provider_name
    original_provider icon_dict credentials schema_type schema_text policy
    disclaimer labels w' r :
  unique_names w ->
  update_api_tool_provider E w user tenant provider_name original_provider
    icon_dict credentials schema_type schema_text policy disclaimer labels
  = inr (w', r) ->
  unique_names w'.
Proof.
  intros Huniq H.
  apply update_api_tool_provider_inv in H
    as (i & old & parsed & a & auth & merged
        & _ & _ & _ & _ & _ & _ & -> & _ & Hfree).
  unfold unique_names in *. simpl rows. rewrite list_fmap_insert.
  apply NoDup_insert_only_at; [done|].
  intros j Hj. destruct (decide (j = i)) as [|Hne]; [done|].
  exfalso. apply Hfree. unfold taken.
  apply list_lookup_fmap_Some in Hj as (q & Hkey & Hq).
  apply list_elem_of_fmap. exists q. split; [exact Hkey|].
  by apply (elem_of_delete_other _ i j).
Qed.

(** With tenant and name unique, a new name that no other provider of the
    tenant has is not refused by the constraint. *)
Lemma free_name_not_taken w tenant provider_name original_provider i old new :
  unique_names w ->
  query_first w tenant original_provider = Some (i, old) ->
  (forall p, p ∈ rows w -> tenant_id p = tenant ->
             name p = strip provider_name -> name p = original_provider) ->
  tenant_id new = tenant_id old ->
  name new = strip provider_name ->
  ~ taken new (delete i (rows w)).
Proof.
  intros Huniq Hq Hfree Ht Hn Htaken.
  apply query_first_Some in Hq as (Hi & Hot & Hon).
  unfold taken in Htaken.
  apply list_elem_of_fmap in Htaken as (q & Hkey & Hin).
  injection Hkey as Hqt Hqn.
  apply elem_of_delete_lookup in Hin as (j & Hne & Hj).
  assert (name q = original_provider) as Hqo.
  { apply Hfree; [by eapply list_elem_of_lookup_2|congruence..]. }
  apply Hne.
  apply (proj1 (NoDup_alt _) Huniq j i (tenant, original_provider)).
  - rewrite list_lookup_fmap, Hj. simpl. congruence.
  - rewrite list_lookup_fmap, Hi. simpl. congruence.
Qed.

(** C4. Starting from a table in which no two providers of a tenant share a
    name, no successful create, update or delete leaves two rows with the
    same tenant and name - an update that renames included - and the name
    that create and update store is the submitted name trimmed. *)
Theorem registry_keeps_unique_names E w :
  unique_names w ->
  (forall user tenant provider_name icon_dict credentials schema_type
          schema_text policy disclaimer labels w' r,
      create_api_tool_provider E w user tenant provider_name icon_dict
        credentials schema_type schema_text policy disclaimer labels
      = inr (w', r) ->
      unique_names w'
      /\ exists row,
           rows w' = (rows w ++ [row])%list
           /\ tenant_id row = tenant /\ name row = strip provider_name)
  /\ (forall user tenant provider_name original_provider icon_dict credentials
             schema_type schema_text policy disclaimer labels w' r,
        update_api_tool_provider E w user tenant provider_name
          original_provider icon_dict credentials schema_type schema_text
          policy disclaimer labels = inr (w', r) ->
        unique_names w'
        /\ exists i row,
             rows w' = <[i := row]> (rows w)
             /\ tenant_id row = tenant /\ name row = strip provider_name)
  /\ (forall user tenant provider_name w' r,
        delete_api_tool_provider w user tenant provider_name = inr (w', r) ->
        unique_names w').
Proof.
  intros Huniq. split; [|split].
  - intros user tenant provider_name icon_dict credentials schema_type
      schema_text policy disclaimer labels w' r H.
    split; [by eapply create_api_tool_provider_unique_names|].
    apply create_api_tool_provider_inv in H
      as (parsed & a & auth & _ & _ & _ & _ & _ & _ & -> & _).
    destruct (rows_create_world E user tenant provider_name icon_dict
                credentials schema_text policy disclaimer parsed auth w
                labels) as (row & Hrows & Ht & Hn & _).
    by exists row.
  - intros user tenant provider_name original_provider icon_dict credentials
      schema_type schema_text policy disclaimer labels w' r H.
    split; [by eapply update_api_tool_provider_keeps_unique_names|].
    apply update_api_tool_provider_row in H
      as (i & old & new & parsed & Hq & _ & Hrows & _ & Ht & _ & Hn & _).
    apply query_first_Some in Hq as (_ & Hot & _).
    exists i, new. split; [done|]. split; [congruence|done].
  - intros. by eapply delete_api_tool_provider_unique_names.
Qed.

Lemma registry_keeps_unique_names_witness :
  unique_names (DemoCases.world_of DemoListing.rename_to_free)
  /\ (name <$> rows (DemoCases.world_of DemoListing.rename_to_free)
      = ["forecast"; "pets"]).
Proof.
  assert (unique_names Demo.world2) as H2
    by (apply (bool_decide_unpack (unique_names Demo.world2));
        vm_compute; exact I).
  destruct (registry_keeps_unique_names Demo.env Demo.world2 H2)
    as (_ & Hupdate & _).
  destruct (Hupdate "u1" "t1" " forecast " "weather" ∅
              (Demo.api_key_credentials "secret1") "openapi" Demo.petstore
              "" "" [] (DemoCases.world_of DemoListing.rename_to_free)
              (Result "success")) as [Huniq _];
    [vm_compute; reflexivity|].
  split; [exact Huniq|vm_compute; reflexivity].
Defined.

(** ** Preview *)

(** The preview is its prefix followed by the [try] block, whose outcome,
    raised or returned, becomes the reply. *)
Lemma test_api_tool_preview_eq E w tenant provider_name tool_name credentials
    parameters schema_type schema_text :
  test_api_tool_preview E w tenant provider_name tool_name credentials
    parameters schema_type schema_text
  = let* prepared :=
      preview_prefix E w tenant provider_name tool_name credentials
        schema_type schema_text in
    ret (preview_reply
           (preview_try E prepared.1 tenant tool_name prepared.2 parameters)).
Proof.
  unfold test_api_tool_preview, preview_prefix.
  destruct (recognized E schema_type); [|done]. simpl.
  destruct (auto_parse_to_tool_bundle E schema_text) as [e|parsed]; [done|].
  simpl.
  destruct (List.find _ (parsed_bundles parsed)); [|done].
  destruct (credentials !! "auth_type") as [au|]; [|done].
  destruct (value_of E au) as [e|auth]; [done|]. simpl.
  destruct (preview_credentials E _ tenant _ credentials) as [e|merged];
    [done|]. simpl.
  unfold preview_reply.
  by destruct (preview_try E _ tenant tool_name merged parameters).
Qed.

(** The lookups of the prefix, when no row matches the provider name. *)
Lemma preview_prefix_without_record E w tenant provider_name tool_name
    credentials schema_type schema_text parsed tool_bundle a auth :
  query_first w tenant provider_name = None ->
  recognized E schema_type = true ->
  auto_parse_to_tool_bundle E schema_text = inr parsed ->
  List.find (fun tb => bool_decide (operation_id tb = tool_name))
    (parsed_bundles parsed) = Some tool_bundle ->
  credentials !! "auth_type" = Some a ->
  value_of E a = inr auth ->
  preview_prefix E w tenant provider_name tool_name credentials schema_type
    schema_text
  = inr (load_bundled_tools
           (from_db (fake_db_provider E schema_text (parsed_bundles parsed)
                       credentials) auth)
           (parsed_bundles parsed),
         credentials).
Proof.
  intros Hq Hrec Hparse Hfind Ha Hauth. unfold preview_prefix.
  rewrite Hrec, Hparse. simpl. rewrite Hfind, Ha, Hauth. simpl.
  unfold preview_db_provider. rewrite Hq. reflexivity.
Qed.

(** On a dict that decryption leaves as it is, the merge loop of the preview
    changes nothing: the mask it compares with is the mask of the submitted
    values, and what it writes back are the submitted values. *)
Lemma preview_credentials_unchanged E db_provider tenant provider_controller
    credentials merged :
  decrypt (create_tool_provider_encrypter E tenant provider_controller)
    credentials = credentials ->
  preview_credentials E db_provider tenant provider_controller credentials
  = inr merged ->
  merged = credentials.
Proof.
  unfold preview_credentials. intros Hdec H.
  destruct (id db_provider); [|by inversion H].
  rewrite Hdec in H. apply map_eq. intros key.
  rewrite (save_original_credentials_lookup _ _ _ _ H key).
  destruct (credentials !! key) as [value|] eqn:Hc; [|done].
  by destruct (decide _).
Qed.

(** C2. For a persisted provider the preview is to merge the submitted
    credentials with the stored ones.  It decrypts and masks the submitted
    dict instead: with [secret1] stored for [weather] and its mask submitted,
    the tool is bound to the mask and the live call is refused, where the
    stored key is accepted. *)
Example preview_binds_submitted_mask :
  stored_plaintext Demo.env DemoUpdate.weather_row "t1" "weather" ∅
    Demo.petstore "" "" DemoUpdate.petstore_parsed API_KEY
    !! "api_key_value" = Some "secret1"
  /\ stored_mask Demo.env DemoUpdate.weather_row "t1" "weather" ∅
       Demo.petstore "" "" DemoUpdate.petstore_parsed API_KEY
       !! "api_key_value" = DemoUpdate.resubmitted !! "api_key_value"
  /\ query_first Demo.world1 "t1" "weather" = Some (0, DemoUpdate.weather_row)
  /\ id DemoUpdate.weather_row = Some 1
  /\ preview_credentials Demo.env DemoUpdate.weather_row "t1"
       DemoPreview.weather_controller DemoUpdate.resubmitted
     = inr DemoUpdate.resubmitted
  /\ DemoPreview.preview_weather DemoUpdate.resubmitted
     = inr (Error "401 Unauthorized")
  /\ DemoPreview.preview_weather (Demo.api_key_credentials "secret1")
     = inr (Result "pong").
Proof. repeat split; vm_compute; reflexivity. Qed.

(** C7, as stated, fails: an error of credential-format validation is not
    raised to the caller but returned as an error reply. *)
Lemma preview_returns_format_error :
  validate_credentials_format Demo.env
    (DemoPreview.draft_controller DemoPreview.keyless) DemoPreview.keyless
  = inl (ValueError "credential api_key_value is required")
  /\ DemoPreview.preview_draft DemoPreview.keyless
     = inr (Error "credential api_key_value is required")
  /\ DemoPreview.preview_draft DemoPreview.keyless
     ≠ inl (ValueError "credential api_key_value is required").
Proof.
  split; [vm_compute; reflexivity|].
  assert (DemoPreview.preview_draft DemoPreview.keyless
          = inr (Error "credential api_key_value is required")) as Heq
    by (vm_compute; reflexivity).
  split; [exact Heq|]. rewrite Heq. discriminate.
Qed.

(** C7, amended. In the preview every exception raised inside the final
    [try] block is caught and returned as an error reply carrying [str(e)]:
    that of credential-format validation, that of the controller's tool
    lookup and that of the live validation call.  An exception raised before
    the block is raised to the caller. *)
Theorem preview_catches_whole_try_block E w tenant provider_name tool_name
    credentials parameters schema_type schema_text :
  (forall e,
     preview_prefix E w tenant provider_name tool_name credentials schema_type
       schema_text = inl e ->
     test_api_tool_preview E w tenant provider_name tool_name credentials
       parameters schema_type schema_text = inl e)
  /\ (forall c merged e,
        preview_prefix E w tenant provider_name tool_name credentials
          schema_type schema_text = inr (c, merged) ->
        preview_try E c tenant tool_name merged parameters = inl e ->
        test_api_tool_preview E w tenant provider_name tool_name credentials
          parameters schema_type schema_text = inr (Error (str e)))
  /\ (forall c merged e,
        validate_credentials_format E c merged = inl e ->
        preview_try E c tenant tool_name merged parameters = inl e)
  /\ (forall c merged e,
        validate_credentials_format E c merged = inr tt ->
        get_tool E c tool_name = inl e ->
        preview_try E c tenant tool_name merged parameters = inl e)
  /\ (forall c merged tool e,
        validate_credentials_format E c merged = inr tt ->
        get_tool E c tool_name = inr tool ->
        validate_credentials E
          (fork_tool_runtime tool
             {| runtime_credentials := merged; runtime_tenant_id := tenant |})
          merged parameters = inl e ->
        preview_try E c tenant tool_name merged parameters = inl e).
Proof.
  repeat split.
  - intros e Hpre. by rewrite test_api_tool_preview_eq, Hpre.
  - intros c merged e Hpre Htry.
    rewrite test_api_tool_preview_eq, Hpre. simpl. by rewrite Htry.
  - intros c merged e Hfmt. unfold preview_try. by rewrite Hfmt.
  - intros c merged e Hfmt Htool. unfold preview_try.
    rewrite Hfmt. simpl. by rewrite Htool.
  - intros c merged tool e Hfmt Htool Hlive. unfold preview_try.
    rewrite Hfmt. simpl. rewrite Htool. simpl. exact Hlive.
Qed.

Lemma preview_catches_whole_try_block_witness :
  DemoPreview.preview_draft DemoPreview.keyless
  = inr (Error (str (ValueError "credential api_key_value is required")))
  /\ test_api_tool_preview Demo.env Demo.world1 "t1" "draft" "getPet"
       (Demo.api_key_credentials "k") ∅ "graphql" Demo.petstore
     = inl (ValueError "invalid schema type graphql").
Proof.
  split.
  - destruct (preview_catches_whole_try_block Demo.env Demo.world1 "t1"
                "draft" "getPet" DemoPreview.keyless ∅ "openapi" Demo.petstore)
      as (_ & Hcaught & Hformat & _).
    apply (Hcaught (DemoPreview.draft_controller DemoPreview.keyless)
             DemoPreview.keyless); [vm_compute; reflexivity|].
    apply Hformat. vm_compute. reflexivity.
  - destruct (preview_catches_whole_try_block Demo.env Demo.world1 "t1"
                "draft" "getPet" (Demo.api_key_credentials "k") ∅ "graphql"
                Demo.petstore) as (Hraised & _).
    apply Hraised. vm_compute. reflexivity.
Defined.

(** C8. When no stored row matches the provider name, the preview does not
    fail for that: it works on a record built in memory with empty tenant,
    user and name and no identity, leaves the submitted credentials as they
    are, and always returns a reply; when the live validation call of the
    bound tool raises, the reply is the error reply with its message. *)
Theorem preview_without_record_is_ephemeral E w tenant provider_name tool_name
    credentials parameters schema_type schema_text parsed tool_bundle a auth :
  query_first w tenant provider_name = None ->
  recognized E schema_type = true ->
  auto_parse_to_tool_bundle E schema_text = inr parsed ->
  List.find (fun tb => bool_decide (operation_id tb = tool_name))
    (parsed_bundles parsed) = Some tool_bundle ->
  credentials !! "auth_type" = Some a ->
  value_of E a = inr auth ->
  let db_provider :=
    fake_db_provider E schema_text (parsed_bundles parsed) credentials in
  let c :=
    load_bundled_tools (from_db db_provider auth) (parsed_bundles parsed) in
  preview_db_provider E w tenant provider_name schema_text
    (parsed_bundles parsed) credentials = db_provider
  /\ tenant_id db_provider = "" /\ user_id db_provider = ""
  /\ name db_provider = "" /\ id db_provider = None
  /\ test_api_tool_preview E w tenant provider_name tool_name credentials
       parameters schema_type schema_text
     = inr (preview_reply
              (preview_try E c tenant tool_name credentials parameters))
  /\ (forall tool e,
        validate_credentials_format E c credentials = inr tt ->
        get_tool E c tool_name = inr tool ->
        validate_credentials E
          (fork_tool_runtime tool
             {| runtime_credentials := credentials;
                runtime_tenant_id := tenant |})
          credentials parameters = inl e ->
        test_api_tool_preview E w tenant provider_name tool_name credentials
          parameters schema_type schema_text = inr (Error (str e))).
Proof.
  intros Hq Hrec Hparse Hfind Ha Hauth db_provider c.
  assert (test_api_tool_preview E w tenant provider_name tool_name credentials
            parameters schema_type schema_text
          = inr (preview_reply
                   (preview_try E c tenant tool_name credentials parameters)))
    as Heq.
  { rewrite test_api_tool_preview_eq.
    by rewrite (preview_prefix_without_record E w tenant provider_name
                  tool_name credentials schema_type schema_text parsed
                  tool_bundle a auth Hq Hrec Hparse Hfind Ha Hauth). }
  split; [by unfold preview_db_provider; rewrite Hq|].
  do 4 (split; [reflexivity|]). split; [exact Heq|].
  intros tool e Hfmt Htool Hlive. rewrite Heq. unfold preview_try.
  rewrite Hfmt. simpl. rewrite Htool. simpl. by rewrite Hlive.
Qed.

Lemma preview_without_record_is_ephemeral_witness :
  query_first Demo.world1 "t1" "draft" = None
  /\ DemoPreview.preview_draft (Demo.api_key_credentials "wrong")
     = inr (Error (str (Exception "401 Unauthorized"))).
Proof.
  assert (query_first Demo.world1 "t1" "draft" = None) as Hq
    by (vm_compute; reflexivity).
  split; [exact Hq|].
  assert (recognized Demo.env "openapi" = true) as Hrec
    by (vm_compute; reflexivity).
  assert (auto_parse_to_tool_bundle Demo.env Demo.petstore
          = inr DemoUpdate.petstore_parsed) as Hparse
    by (vm_compute; reflexivity).
  assert (List.find (fun tb => bool_decide (operation_id tb = "getPet"))
            (parsed_bundles DemoUpdate.petstore_parsed)
          = Some (Demo.bundle "getPet")) as Hfind
    by (vm_compute; reflexivity).
  assert (Demo.api_key_credentials "wrong" !! "auth_type" = Some "api_key")
    as Ha by (vm_compute; reflexivity).
  assert (value_of Demo.env "api_key" = inr API_KEY) as Hauth
    by (vm_compute; reflexivity).
  pose proof (preview_without_record_is_ephemeral Demo.env Demo.world1 "t1"
                "draft" "getPet" (Demo.api_key_credentials "wrong") ∅
                "openapi" Demo.petstore DemoUpdate.petstore_parsed
                (Demo.bundle "getPet") "api_key" API_KEY
                Hq Hrec Hparse Hfind Ha Hauth) as Hthm.
  cbv zeta in Hthm.
  destruct Hthm as (_ & _ & _ & _ & _ & _ & Hlive).
  apply (Hlive
           {| tool_bundle := Demo.bundle "getPet";
              tool_controller :=
                DemoPreview.draft_controller (Demo.api_key_credentials "wrong");
              runtime := None |});
    vm_compute; reflexivity.
Defined.

(** ** Remote schema *)

(** The three ways the fetch can go. *)
Lemma get_api_tool_provider_remote_schema_cases E user tenant url :
  get_api_tool_provider_remote_schema E user tenant url
  = match get E url headers 10 with
    | inl _ => inl InvalidSchemaError
    | inr response =>
        if bool_decide (status_code response = 200%Z) then
          match parser_api_schema E (text response) with
          | inl _ => inl InvalidSchemaError
          | inr _ => inr (Schema (text response))
          end
        else inl InvalidSchemaError
    end.
Proof.
  unfold get_api_tool_provider_remote_schema.
  destruct (get E url headers 10) as [e|response]; [done|]. simpl.
  destruct (decide (status_code response = 200%Z)) as [Heq|Hne].
  - rewrite (bool_decide_eq_false_2 (status_code response ≠ 200%Z));
      [|by intros Hn; apply Hn].
    rewrite (bool_decide_eq_true_2 _ Heq).
    by destruct (parser_api_schema E (text response)).
  - rewrite (bool_decide_eq_true_2 _ Hne).
    by rewrite (bool_decide_eq_false_2 _ Hne).
Qed.

Lemma parser_api_schema_raises E schema_text e :
  auto_parse_to_tool_bundle E schema_text = inl e ->
  exists e', parser_api_schema E schema_text = inl e'.
Proof.
  intros H. unfold parser_api_schema. rewrite H. simpl. by eexists.
Qed.

(** C9. Whatever goes wrong in [get_api_tool_provider_remote_schema] - the
    request raising, a status other than 200 (404 for one), the fetched text
    not parsing - the caller gets the same [ValueError] with the fixed text
    [invalid schema, please check the url you provided]; no other exception
    leaves the function, so neither the status code nor the text of the inner
    exception reaches the caller. *)
Theorem remote_schema_failures_are_generic E user tenant url :
  (forall e, get E url headers 10 = inl e ->
     get_api_tool_provider_remote_schema E user tenant url
     = inl InvalidSchemaError)
  /\ (forall response,
        get E url headers 10 = inr response ->
        status_code response ≠ 200%Z ->
        get_api_tool_provider_remote_schema E user tenant url
        = inl InvalidSchemaError)
  /\ (forall response e,
        get E url headers 10 = inr response ->
        auto_parse_to_tool_bundle E (text response) = inl e ->
        get_api_tool_provider_remote_schema E user tenant url
        = inl InvalidSchemaError)
  /\ (forall e,
        get_api_tool_provider_remote_schema E user tenant url = inl e ->
        e = InvalidSchemaError
        /\ str e = "invalid schema, please check the url you provided").
Proof.
  rewrite get_api_tool_provider_remote_schema_cases.
  split; [|split; [|split]].
  - intros e ->. done.
  - intros response -> Hne. by rewrite (bool_decide_eq_false_2 _ Hne).
  - intros response e -> Hparse.
    destruct (parser_api_schema_raises E _ _ Hparse) as [e' ->].
    by destruct (bool_decide _).
  - intros e H.
    assert (e = InvalidSchemaError) as ->; [|done].
    destruct (get E url headers 10) as [e'|response]; [by inversion H|].
    destruct (bool_decide _); [|by inversion H].
    destruct (parser_api_schema E (text response)); by inversion H.
Qed.

Lemma remote_schema_failures_are_generic_witness :
  get_api_tool_provider_remote_schema Demo.env "u1" "t1"
    "https://unreachable.example" = inl InvalidSchemaError
  /\ get_api_tool_provider_remote_schema Demo.env "u1" "t1"
       "https://example.com/missing" = inl InvalidSchemaError
  /\ get_api_tool_provider_remote_schema Demo.env "u1" "t1"
       "https://example.com/index.html" = inl InvalidSchemaError.
Proof.
  split; [|split].
  - destruct (remote_schema_failures_are_generic Demo.env "u1" "t1"
                "https://unreachable.example") as (Hraise & _).
    apply (Hraise (Exception "connection refused")). vm_compute. reflexivity.
  - destruct (remote_schema_failures_are_generic Demo.env "u1" "t1"
                "https://example.com/missing") as (_ & Hstatus & _).
    apply (Hstatus {| status_code := 404; text := "Not Found" |});
      [vm_compute; reflexivity|discriminate].
  - destruct (remote_schema_failures_are_generic Demo.env "u1" "t1"
                "https://example.com/index.html") as (_ & _ & Hparse & _).
    apply (Hparse {| status_code := 200; text := "<html></html>" |}
             (Exception "malformed document"));
      vm_compute; reflexivity.
Defined.

(** C10. Only the status 200 is accepted: for a response with any other
    status code, 201 and 204 included, the function fails with the generic
    error. *)
Theorem remote_schema_accepts_only_200 E user tenant url response :
  get E url headers 10 = inr response ->
  status_code response ≠ 200%Z ->
  get_api_tool_provider_remote_schema E user tenant url
  = inl InvalidSchemaError.
Proof.
  intros Hget Hne.
  rewrite get_api_tool_provider_remote_schema_cases, Hget.
  by rewrite (bool_decide_eq_false_2 _ Hne).
Qed.

Lemma remote_schema_accepts_only_200_witness :
  get Demo.env "https://example.com/created" headers 10
  = inr {| status_code := 201; text := Demo.petstore |}
  /\ get_api_tool_provider_remote_schema Demo.env "u1" "t1"
       "https://example.com/created" = inl InvalidSchemaError.
Proof.
  assert (get Demo.env "https://example.com/created" headers 10
          = inr {| status_code := 201; text := Demo.petstore |}) as Hget
    by (vm_compute; reflexivity).
  split; [exact Hget|].
  apply (remote_schema_accepts_only_200 Demo.env "u1" "t1"
           "https://example.com/created" _ Hget).
  discriminate.
Defined.

Example remote_schema_200_returns_text :
  get_api_tool_provider_remote_schema Demo.env "u1" "t1"
    "https://example.com/openapi.txt" = inr (Schema Demo.petstore).
Proof. vm_compute. reflexivity. Qed.

(** ** More on [strip] *)

Lemma rstrip_cons c s :
  rstrip (String c s)
  = match rstrip s with
    | EmptyString => if isspace c then EmptyString else String c EmptyString
    | r => String c r
    end.
Proof. reflexivity. Qed.

Lemma rstrip_idempotent s : rstrip (rstrip s) = rstrip s.
Proof.
  induction s as [|c s IH]; [done|]. rewrite rstrip_cons.
  destruct (rstrip s) as [|d r] eqn:Hr.
  - destruct (isspace c) eqn:Hc; [done|]. simpl. by rewrite Hc.
  - rewrite rstrip_cons. by rewrite IH.
Qed.

(** [rstrip] keeps a leading character that is not white space. *)
Lemma lstrip_rstrip_lstrip s : lstrip (rstrip (lstrip s)) = rstrip (lstrip s).
Proof.
  induction s as [|c s IH]; [done|].
  change (lstrip (String c s))
    with (if isspace c then lstrip s else String c s).
  destruct (isspace c) eqn:Hc; [exact IH|]. rewrite rstrip_cons.
  destruct (rstrip s); rewrite ?Hc; simpl; by rewrite Hc.
Qed.

Lemma strip_idempotent s : strip (strip s) = strip s.
Proof.
  unfold strip. by rewrite lstrip_rstrip_lstrip, rstrip_idempotent.
Qed.

(** ** The table after a create *)

Lemma query_first_create_world_found E user tenant provider_name icon_dict
    credentials schema_text policy disclaimer parsed auth w labels :
  query_first w tenant (strip provider_name) = None ->
  query_first
    (create_world E user tenant provider_name icon_dict credentials
       schema_text policy disclaimer parsed auth w labels)
    tenant (strip provider_name)
  = Some (length (rows w),
          with_id (next_id w)
            (create_record E user tenant provider_name icon_dict credentials
               schema_text policy disclaimer parsed auth)).
Proof.
  intros Hq. unfold query_first in *. simpl rows.
  rewrite list_find_app_r by done. simpl.
  rewrite decide_True by done. reflexivity.
Qed.

Lemma query_first_create_world_frame E user tenant provider_name icon_dict
    credentials schema_text policy disclaimer parsed auth w labels t n :
  t ≠ tenant \/ n ≠ strip provider_name ->
  query_first
    (create_world E user tenant provider_name icon_dict credentials
       schema_text policy disclaimer parsed auth w labels) t n
  = query_first w t n.
Proof.
  intros Hne. unfold query_first. simpl rows.
  destruct (list_find _ (rows w)) as [[i p]|] eqn:Hq.
  - by apply list_find_app_l.
  - rewrite list_find_app_r by done. simpl.
    rewrite decide_False; [done|]. intros [Ht Hn]. by destruct Hne.
Qed.

(** X1. A create whose checks pass succeeds, and the provider is then found
    under its tenant and trimmed name, at the end of the table: with the
    identity the table assigned, the submitted owner, schema and policies,
    the schema type and description the parser returned (not the submitted
    schema type), and the encrypted - not the submitted - credentials. *)
Theorem create_then_lookup E w user tenant provider_name icon_dict credentials
    schema_type schema_text policy disclaimer labels parsed a auth :
  recognized E schema_type = true ->
  query_first w tenant (strip provider_name) = None ->
  convert_schema_to_tool_bundles E schema_text = inr parsed ->
  length (parsed_bundles parsed) <= 100 ->
  credentials !! "auth_type" = Some a ->
  value_of E a = inr auth ->
  exists w' row,
    create_api_tool_provider E w user tenant provider_name icon_dict
      credentials schema_type schema_text policy disclaimer labels
    = inr (w', Result "success")
    /\ query_first w' tenant (strip provider_name)
       = Some (length (rows w), row)
    /\ next_id w' = S (next_id w)
    /\ id row = Some (next_id w)
    /\ tenant_id row = tenant /\ user_id row = user
    /\ name row = strip provider_name
    /\ icon row = json_dumps E icon_dict
    /\ schema row = schema_text
    /\ schema_type_str row = parsed_schema_type parsed
    /\ description row = default "" (parsed_description parsed)
    /\ tools_str row = json_dumps_bundles E (parsed_bundles parsed)
    /\ privacy_policy row = policy /\ custom_disclaimer row = disclaimer
    /\ credentials_str row
       = json_dumps E
           (encrypt
              (create_tool_provider_encrypter E tenant
                 (create_controller E user tenant provider_name icon_dict
                    schema_text policy disclaimer parsed auth))
              credentials).
Proof.
  intros Hrec Hq Hparse Hlen Ha Hauth.
  eexists. eexists. split.
  - by apply (create_api_tool_provider_steps E w user tenant provider_name
                icon_dict credentials schema_type schema_text policy
                disclaimer labels parsed a auth).
  - split; [by apply query_first_create_world_found|]. repeat split.
Qed.

Lemma create_then_lookup_witness :
  exists w' row,
    create_api_tool_provider Demo.env Demo.world1 "u7" "t1" " maps  " ∅
      (Demo.api_key_credentials "k") "openapi" DemoCases.swagger_schema
      "policy" "" [] = inr (w', Result "success")
    /\ query_first w' "t1" "maps" = Some (1, row)
    /\ id row = Some 2
    /\ schema_type_str row = "swagger"
    /\ credentials_str row = "auth_type=api_key;api_key_value=enc:k;".
Proof.
  destruct (create_then_lookup Demo.env Demo.world1 "u7" "t1" " maps  " ∅
              (Demo.api_key_credentials "k") "openapi"
              DemoCases.swagger_schema "policy" "" []
              (DemoCases.parsed_of DemoCases.swagger_schema) "api_key" API_KEY)
    as (w' & row & Hcreate & Hfound & _ & Hid & _ & _ & _ & _ & _ & Hty & _
        & _ & _ & _ & Hcred);
    try (vm_compute; reflexivity); [vm_compute; lia|].
  exists w', row. split; [exact Hcreate|]. split; [exact Hfound|].
  split; [exact Hid|]. split; [exact Hty|]. rewrite Hcred.
  vm_compute. reflexivity.
Defined.

(** X2. A successful create only appends: the rows that were there stay in
    place, and a lookup under any other tenant or any other name gives what
    it gave before. *)
Theorem create_keeps_other_lookups E w user tenant provider_name icon_dict
    credentials schema_type schema_text policy disclaimer labels w' r :
  create_api_tool_provider E w user tenant provider_name icon_dict
    credentials schema_type schema_text policy disclaimer labels
  = inr (w', r) ->
  (exists row, rows w' = (rows w ++ [row])%list)
  /\ forall t n,
       t ≠ tenant \/ n ≠ strip provider_name ->
       query_first w' t n = query_first w t n.
Proof.
  intros H.
  apply create_api_tool_provider_inv in H
    as (parsed & a & auth & _ & _ & _ & _ & _ & _ & -> & _).
  split; [by eexists|].
  intros t n Hne. by apply query_first_create_world_frame.
Qed.

Lemma create_keeps_other_lookups_witness :
  query_first Demo.world2 "t1" "weather" = query_first Demo.world1 "t1" "weather"
  /\ query_first Demo.world2 "t2" "pets" = query_first Demo.world1 "t2" "pets".
Proof.
  destruct (create_keeps_other_lookups Demo.env Demo.world1 "u1" "t1" "pets" ∅
              (Demo.api_key_credentials "secret2") "openapi" Demo.petstore
              "" "" [] Demo.world2 (Result "success")) as [_ Hframe];
    [vm_compute; reflexivity|].
  split; apply Hframe; [right|left]; discriminate.
Defined.

(** ** Invariants of the table *)

(** X3. Tenant and name stay unique under a successful create, under a
    successful delete, and under a successful update whose new name is not
    the name of another provider of the tenant. *)
Theorem unique_names_kept E w :
  unique_names w ->
  (forall user tenant provider_name icon_dict credentials schema_type
          schema_text policy disclaimer labels w' r,
      create_api_tool_provider E w user tenant provider_name icon_dict
        credentials schema_type schema_text policy disclaimer labels
      = inr (w', r) ->
      unique_names w')
  /\ (forall user tenant provider_name w' r,
        delete_api_tool_provider w user tenant provider_name = inr (w', r) ->
        unique_names w')
  /\ (forall user tenant provider_name original_provider icon_dict credentials
             schema_type schema_text policy disclaimer labels w' r,
        (forall p, p ∈ rows w -> tenant_id p = tenant ->
                   name p = strip provider_name -> name p = original_provider) ->
        update_api_tool_provider E w user tenant provider_name
          original_provider icon_dict credentials schema_type schema_text
          policy disclaimer labels = inr (w', r) ->
        unique_names w').
Proof.
  intros Huniq. split; [|split].
  - intros. by eapply create_api_tool_provider_unique_names.
  - intros. by eapply delete_api_tool_provider_unique_names.
  - intros. by eapply update_api_tool_provider_unique_names.
Qed.

Lemma unique_names_kept_witness :
  unique_names Demo.world2
  /\ unique_names (DemoCases.world_of DemoListing.rename_to_free).
Proof.
  assert (unique_names Demo.world1) as H1
    by (apply (bool_decide_unpack (unique_names Demo.world1));
        vm_compute; exact I).
  destruct (unique_names_kept Demo.env Demo.world1 H1) as (Hcreate & _ & _).
  assert (unique_names Demo.world2) as H2.
  { apply (Hcreate "u1" "t1" "pets" ∅ (Demo.api_key_credentials "secret2")
             "openapi" Demo.petstore "" "" [] Demo.world2 (Result "success")).
    vm_compute. reflexivity. }
  split; [exact H2|].
  destruct (unique_names_kept Demo.env Demo.world2 H2) as (_ & _ & Hupdate).
  apply (Hupdate "u1" "t1" " forecast " "weather" ∅
           (Demo.api_key_credentials "secret1") "openapi" Demo.petstore "" ""
           [] _ (Result "success")).
  - intros p Hin _ Hname. exfalso.
    apply list_elem_of_In in Hin. vm_compute in Hin.
    destruct Hin as [<-|[<-|[]]]; vm_compute in Hname; discriminate.
  - vm_compute. reflexivity.
Defined.

(** X4. Every name the table holds after a successful create, update or
    delete is trimmed, when the names it held before were: create and update
    store [strip] of the submitted name, and [strip] of a stripped name is the
    name itself. *)
Theorem names_stay_trimmed E w :
  names_trimmed w ->
  (forall user tenant provider_name icon_dict credentials schema_type
          schema_text policy disclaimer labels w' r,
      create_api_tool_provider E w user tenant provider_name icon_dict
        credentials schema_type schema_text policy disclaimer labels
      = inr (w', r) ->
      names_trimmed w')
  /\ (forall user tenant provider_name original_provider icon_dict credentials
             schema_type schema_text policy disclaimer labels w' r,
        update_api_tool_provider E w user tenant provider_name
          original_provider icon_dict credentials schema_type schema_text
          policy disclaimer labels = inr (w', r) ->
        names_trimmed w')
  /\ (forall user tenant provider_name w' r,
        delete_api_tool_provider w user tenant provider_name = inr (w', r) ->
        names_trimmed w').
Proof.
  unfold names_trimmed. intros Htrim. split; [|split].
  - intros user tenant provider_name icon_dict credentials schema_type
      schema_text policy disclaimer labels w' r H.
    apply create_api_tool_provider_inv in H
      as (parsed & a & auth & _ & _ & _ & _ & _ & _ & -> & _).
    simpl rows. apply Forall_app. split; [done|].
    apply Forall_singleton. simpl. apply strip_idempotent.
  - intros user tenant provider_name original_provider icon_dict credentials
      schema_type schema_text policy disclaimer labels w' r H.
    apply update_api_tool_provider_inv in H
      as (i & old & parsed & a & auth & merged
          & _ & _ & _ & _ & _ & _ & -> & _).
    simpl rows. apply Forall_insert; [done|]. simpl. apply strip_idempotent.
  - intros user tenant provider_name w' r H.
    unfold delete_api_tool_provider in H.
    destruct (query_first w tenant provider_name) as [[i p]|]; [|done].
    inversion H; subst. simpl. by apply Forall_delete.
Qed.

Lemma names_stay_trimmed_witness :
  names_trimmed (DemoCases.world_of DemoListing.create_padded)
  /\ name <$> rows (DemoCases.world_of DemoListing.create_padded) !! 1
     = Some "maps".
Proof.
  assert (names_trimmed Demo.world1) as H1
    by (repeat constructor).
  destruct (names_stay_trimmed Demo.env Demo.world1 H1) as (Hcreate & _ & _).
  split; [|vm_compute; reflexivity].
  apply (Hcreate "u1" "t1" "  maps " ∅ (Demo.api_key_credentials "k")
           "openapi" Demo.petstore "" "" ["geo"] _ (Result "success")).
  vm_compute. reflexivity.
Defined.

(** ** Delete *)

Lemma list_find_delete_other {A} (P : A -> Prop) `{!forall x, Decision (P x)}
    (l : list A) (i : nat) (x : A) :
  l !! i = Some x -> ~ P x ->
  snd <$> list_find P (delete i l) = snd <$> list_find P l.
Proof.
  revert i. induction l as [|y l IH]; intros i Hi Hx; [done|].
  destruct i as [|i]; simpl in *.
  - inversion Hi; subst. rewrite decide_False by done.
    by destruct (list_find P l) as [[j z]|].
  - destruct (decide (P y)); [done|].
    specialize (IH i Hi Hx).
    destruct (list_find P (delete i l)) as [[j z]|],
             (list_find P l) as [[j' z']|]; simpl in *; congruence.
Qed.

Lemma query_first_delete_same w t n i p :
  unique_names w ->
  query_first w t n = Some (i, p) ->
  query_first (commit_delete w i) t n = None.
Proof.
  intros Huniq Hq. apply query_first_Some in Hq as (Hi & Ht & Hn).
  apply query_first_None. intros q Hin [Hqt Hqn]. simpl in Hin.
  apply list_elem_of_lookup in Hin as [j Hj].
  assert (exists j', j' ≠ i /\ rows w !! j' = Some q) as (j' & Hne & Hj').
  { destruct (decide (j < i)).
    - exists j. split; [lia|]. by rewrite list_lookup_delete_lt in Hj.
    - exists (S j). split; [lia|].
      by rewrite list_lookup_delete_ge in Hj by lia. }
  apply Hne.
  apply (proj1 (NoDup_alt _) Huniq j' i (t, n)).
  - rewrite list_lookup_fmap, Hj'. simpl. congruence.
  - rewrite list_lookup_fmap, Hi. simpl. congruence.
Qed.

(** X5. In a table where tenant and name are unique, a provider that was
    deleted is gone: deleting the same tenant and name again fails with
    [you have not added provider <name>]. *)
Theorem delete_twice_fails w user tenant provider_name w' r :
  unique_names w ->
  delete_api_tool_provider w user tenant provider_name = inr (w', r) ->
  forall user',
    delete_api_tool_provider w' user' tenant provider_name
    = inl (ValueError ("you have not added provider " +:+ provider_name)).
Proof.
  intros Huniq H user'. unfold delete_api_tool_provider in H.
  destruct (query_first w tenant provider_name) as [[i p]|] eqn:Hq; [|done].
  inversion H; subst. unfold delete_api_tool_provider.
  by rewrite (query_first_delete_same w tenant provider_name i p Huniq Hq).
Qed.

Lemma delete_twice_fails_witness :
  exists w',
    delete_api_tool_provider Demo.world2 "u1" "t1" "weather"
    = inr (w', Result "success")
    /\ delete_api_tool_provider w' "u1" "t1" "weather"
       = inl (ValueError "you have not added provider weather").
Proof.
  exists (DemoCases.world_of
            (delete_api_tool_provider Demo.world2 "u1" "t1" "weather")).
  assert (delete_api_tool_provider Demo.world2 "u1" "t1" "weather"
          = inr (DemoCases.world_of
                   (delete_api_tool_provider Demo.world2 "u1" "t1" "weather"),
                 Result "success")) as Hdel by (vm_compute; reflexivity).
  split; [exact Hdel|].
  apply (delete_twice_fails Demo.world2 "u1" "t1" "weather" _
           (Result "success")); [|exact Hdel].
  apply (bool_decide_unpack (unique_names Demo.world2)). vm_compute. exact I.
Defined.

(** X6. A successful delete removes one row and nothing else: the table is
    one row shorter, and a lookup under another tenant or another name finds
    the provider it found before. *)
Theorem delete_keeps_other_lookups w user tenant provider_name w' r :
  delete_api_tool_provider w user tenant provider_name = inr (w', r) ->
  length (rows w) = S (length (rows w'))
  /\ forall t n,
       t ≠ tenant \/ n ≠ provider_name ->
       snd <$> query_first w' t n = snd <$> query_first w t n.
Proof.
  unfold delete_api_tool_provider. intros H.
  destruct (query_first w tenant provider_name) as [[i p]|] eqn:Hq; [|done].
  inversion H; subst. apply query_first_Some in Hq as (Hi & Ht & Hn).
  split.
  - simpl. rewrite length_delete by eauto.
    apply lookup_lt_Some in Hi. lia.
  - intros t n Hne. unfold query_first. simpl.
    apply (list_find_delete_other _ _ _ p Hi).
    intros [Hpt Hpn]. destruct Hne; congruence.
Qed.

Lemma delete_keeps_other_lookups_witness :
  snd <$> query_first
            (DemoCases.world_of
               (delete_api_tool_provider Demo.world2 "u1" "t1" "weather"))
            "t1" "pets"
  = snd <$> query_first Demo.world2 "t1" "pets".
Proof.
  destruct (delete_keeps_other_lookups Demo.world2 "u1" "t1" "weather"
              (DemoCases.world_of
                 (delete_api_tool_provider Demo.world2 "u1" "t1" "weather"))
              (Result "success")) as [_ Hframe];
    [vm_compute; reflexivity|].
  apply Hframe. right. discriminate.
Defined.

(** X7. Create followed by delete of the trimmed name gives back the rows the
    table had before the create. *)
Theorem create_then_delete_restores_rows E w user tenant provider_name
    icon_dict credentials schema_type schema_text policy disclaimer labels
    w1 r :
  create_api_tool_provider E w user tenant provider_name icon_dict
    credentials schema_type schema_text policy disclaimer labels
  = inr (w1, r) ->
  forall user',
  exists w2,
    delete_api_tool_provider w1 user' tenant (strip provider_name)
    = inr (w2, Result "success")
    /\ rows w2 = rows w.
Proof.
  intros H user'.
  apply create_api_tool_provider_inv in H
    as (parsed & a & auth & _ & Hq & _ & _ & _ & _ & -> & _).
  unfold delete_api_tool_provider.
  rewrite (query_first_create_world_found E user tenant provider_name
             icon_dict credentials schema_text policy disclaimer parsed auth
             w labels Hq).
  eexists. split; [reflexivity|]. simpl.
  rewrite delete_middle. apply app_nil_r.
Qed.

Lemma create_then_delete_restores_rows_witness :
  exists w2,
    delete_api_tool_provider Demo.world2 "u1" "t1" "pets"
    = inr (w2, Result "success")
    /\ rows w2 = rows Demo.world1.
Proof.
  apply (create_then_delete_restores_rows Demo.env Demo.world1 "u1" "t1"
           "pets" ∅ (Demo.api_key_credentials "secret2") "openapi"
           Demo.petstore "" "" [] Demo.world2 (Result "success")).
  vm_compute. reflexivity.
Defined.

(** X8. The lookups of delete and update compare the name as it was given,
    untrimmed, while create stores the trimmed name: in a table of trimmed
    names, a provider created under a name with surrounding white space is
    found neither by a delete nor by an update that passes that same name. *)
Theorem lookups_do_not_trim E w user tenant provider_name icon_dict
    credentials schema_type schema_text policy disclaimer labels w1 r :
  names_trimmed w ->
  strip provider_name ≠ provider_name ->
  create_api_tool_provider E w user tenant provider_name icon_dict
    credentials schema_type schema_text policy disclaimer labels
  = inr (w1, r) ->
  (forall user',
     delete_api_tool_provider w1 user' tenant provider_name
     = inl (ValueError ("you have not added provider " +:+ provider_name)))
  /\ (forall user' new_name icon_dict' credentials' schema_text' policy'
             disclaimer' labels',
        update_api_tool_provider E w1 user' tenant new_name provider_name
          icon_dict' credentials' schema_type schema_text' policy'
          disclaimer' labels'
        = inl (ValueError
                 ("api provider " +:+ strip new_name +:+ " does not exists"))).
Proof.
  intros Htrim Hpad H.
  apply create_api_tool_provider_inv in H
    as (parsed & a & auth & Hrec & _ & _ & _ & _ & _ & -> & _).
  assert (query_first
            (create_world E user tenant provider_name icon_dict credentials
               schema_text policy disclaimer parsed auth w labels)
            tenant provider_name = None) as Hnone.
  { rewrite query_first_create_world_frame by (right; congruence).
    apply query_first_None. intros p Hin [_ Hn].
    unfold names_trimmed in Htrim.
    rewrite Forall_forall in Htrim. specialize (Htrim p Hin).
    congruence. }
  split.
  - intros user'. unfold delete_api_tool_provider. by rewrite Hnone.
  - intros. unfold update_api_tool_provider. by rewrite Hrec, Hnone.
Qed.

Lemma lookups_do_not_trim_witness :
  delete_api_tool_provider (DemoCases.world_of DemoListing.create_padded)
    "u1" "t1" "  maps "
  = inl (ValueError "you have not added provider   maps ").
Proof.
  destruct (lookups_do_not_trim Demo.env Demo.world1 "u1" "t1" "  maps " ∅
              (Demo.api_key_credentials "k") "openapi" Demo.petstore "" ""
              ["geo"] (DemoCases.world_of DemoListing.create_padded)
              (Result "success")) as [Hdelete _].
  - repeat constructor.
  - discriminate.
  - vm_compute. reflexivity.
  - apply Hdelete.
Defined.

(** ** Create: the limit and the order of the checks *)

(** X9. The limit of create is exactly 100: for a request that passes the
    checks on schema type, name, schema and credentials, create succeeds when
    the schema compiles to at most 100 bundles and fails with
    [the number of apis should be less than 100] when it compiles to more. *)
Theorem create_limit_boundary E w user tenant provider_name icon_dict
    credentials schema_type schema_text policy disclaimer labels parsed a
    auth :
  recognized E schema_type = true ->
  query_first w tenant (strip provider_name) = None ->
  convert_schema_to_tool_bundles E schema_text = inr parsed ->
  credentials !! "auth_type" = Some a ->
  value_of E a = inr auth ->
  (length (parsed_bundles parsed) <= 100 ->
   exists w',
     create_api_tool_provider E w user tenant provider_name icon_dict
       credentials schema_type schema_text policy disclaimer labels
     = inr (w', Result "success"))
  /\ (100 < length (parsed_bundles parsed) ->
      create_api_tool_provider E w user tenant provider_name icon_dict
        credentials schema_type schema_text policy disclaimer labels
      = inl (ValueError "the number of apis should be less than 100")).
Proof.
  intros Hrec Hq Hparse Ha Hauth. split; intros Hlen.
  - eexists.
    by apply (create_api_tool_provider_steps E w user tenant provider_name
                icon_dict credentials schema_type schema_text policy
                disclaimer labels parsed a auth).
  - by apply (create_api_tool_provider_limit E w user tenant provider_name
                icon_dict credentials schema_type schema_text policy
                disclaimer labels parsed).
Qed.

Lemma create_limit_boundary_witness :
  length (parsed_bundles (DemoCases.parsed_of DemoListing.full_schema)) = 100
  /\ (exists w',
        create_api_tool_provider Demo.env Demo.world1 "u1" "t1" "maps" ∅
          (Demo.api_key_credentials "k") "openapi" DemoListing.full_schema
          "" "" [] = inr (w', Result "success"))
  /\ create_api_tool_provider Demo.env Demo.world1 "u1" "t1" "maps" ∅
       (Demo.api_key_credentials "k") "openapi" DemoCases.big_schema
       "" "" []
     = inl (ValueError "the number of apis should be less than 100").
Proof.
  assert (length (parsed_bundles (DemoCases.parsed_of DemoListing.full_schema))
          = 100) as Hfull by (vm_compute; reflexivity).
  split; [exact Hfull|]. split.
  - destruct (create_limit_boundary Demo.env Demo.world1 "u1" "t1" "maps" ∅
                (Demo.api_key_credentials "k") "openapi"
                DemoListing.full_schema "" "" []
                (DemoCases.parsed_of DemoListing.full_schema) "api_key"
                API_KEY) as [Hok _];
      [vm_compute; reflexivity..|].
    apply Hok. rewrite Hfull. lia.
  - destruct (create_limit_boundary Demo.env Demo.world1 "u1" "t1" "maps" ∅
                (Demo.api_key_credentials "k") "openapi"
                DemoCases.big_schema "" "" []
                (DemoCases.parsed_of DemoCases.big_schema) "api_key"
                API_KEY) as [_ Hover];
      [vm_compute; reflexivity..|].
    apply Hover. vm_compute. lia.
Defined.

(** X10. Create runs its checks in a fixed order and reports the first that
    fails: an unrecognized schema type before anything else (the message
    carries the schema document); then a taken name, before the schema is
    parsed; then a schema that does not parse, with the parser's message
    after [invalid schema: ]; then the limit; and only then a credentials
    dict without [auth_type], and an [auth_type] that is not recognized. *)
Theorem create_checks_in_order E w user tenant provider_name icon_dict
    credentials schema_type schema_text policy disclaimer labels :
  let create :=
    create_api_tool_provider E w user tenant provider_name icon_dict
      credentials schema_type schema_text policy disclaimer labels in
  (recognized E schema_type = false ->
   create = inl (ValueError ("invalid schema type " +:+ schema_text)))
  /\ (recognized E schema_type = true ->
      (is_Some (query_first w tenant (strip provider_name)) ->
       create = inl (ValueError ("provider " +:+ strip provider_name
                                 +:+ " already exists")))
      /\ (query_first w tenant (strip provider_name) = None ->
          (forall e,
             auto_parse_to_tool_bundle E schema_text = inl e ->
             create = inl (ValueError ("invalid schema: " +:+ str e)))
          /\ (forall parsed,
                auto_parse_to_tool_bundle E schema_text = inr parsed ->
                length (parsed_bundles parsed) <= 100 ->
                (credentials !! "auth_type" = None ->
                 create = inl (ValueError "auth_type is required"))
                /\ (forall a e,
                      credentials !! "auth_type" = Some a ->
                      value_of E a = inl e ->
                      create = inl e)))).
Proof.
  intros create. subst create. unfold create_api_tool_provider.
  split; [by intros ->|]. intros ->. simpl. split.
  - by intros [found ->].
  - intros ->. unfold convert_schema_to_tool_bundles. split.
    + by intros e ->.
    + intros parsed -> Hlen. simpl.
      destruct (Nat.ltb_spec 100 (length (parsed_bundles parsed)));
        [lia|]. split.
      * by intros ->.
      * by intros a e -> ->.
Qed.

Lemma create_checks_in_order_witness :
  create_api_tool_provider Demo.env Demo.world1 "u1" "t1" "weather" ∅ ∅
    "openapi" "not a schema" "" "" []
  = inl (ValueError "provider weather already exists")
  /\ create_api_tool_provider Demo.env Demo.world1 "u1" "t1" "maps" ∅ ∅
       "openapi" Demo.petstore "" "" []
     = inl (ValueError "auth_type is required").
Proof.
  split.
  - destruct (create_checks_in_order Demo.env Demo.world1 "u1" "t1" "weather"
                ∅ ∅ "openapi" "not a schema" "" "" []) as [_ Hrec].
    destruct Hrec as [Htaken _]; [vm_compute; reflexivity|].
    apply Htaken. vm_compute. eexists. reflexivity.
  - destruct (create_checks_in_order Demo.env Demo.world1 "u1" "t1" "maps"
                ∅ ∅ "openapi" Demo.petstore "" "" []) as [_ Hrec].
    destruct Hrec as [_ Hfree]; [vm_compute; reflexivity|].
    destruct Hfree as [_ Hparsed]; [vm_compute; reflexivity|].
    destruct (Hparsed DemoUpdate.petstore_parsed) as [Hmissing _];
      [vm_compute; reflexivity|vm_compute; lia|].
    apply Hmissing. vm_compute. reflexivity.
Defined.

(** ** Update: the rest of the table *)

Lemma list_find_insert_other {A} (P : A -> Prop) `{!forall x, Decision (P x)}
    (l : list A) (i : nat) (x y : A) :
  l !! i = Some x -> ~ P x -> ~ P y ->
  list_find P (<[i := y]> l) = list_find P l.
Proof.
  revert i. induction l as [|z l IH]; intros i Hi Hx Hy; [done|].
  destruct i as [|i]; simpl in *.
  - inversion Hi; subst. by rewrite !decide_False by done.
  - destruct (decide (P z)); [done|]. by rewrite (IH i Hi Hx Hy).
Qed.

(** X11. A successful update writes one row: the table keeps its length and
    its next identity, every row but the one found by the lookup is what it
    was, and every lookup under another tenant gives what it gave before. *)
Theorem update_confined_to_its_row E w user tenant provider_name
    original_provider icon_dict credentials schema_type schema_text policy
    disclaimer labels w' r :
  update_api_tool_provider E w user tenant provider_name original_provider
    icon_dict credentials schema_type schema_text policy disclaimer labels
  = inr (w', r) ->
  exists i old,
    query_first w tenant original_provider = Some (i, old)
    /\ length (rows w') = length (rows w)
    /\ next_id w' = next_id w
    /\ (forall j, j ≠ i -> rows w' !! j = rows w !! j)
    /\ (forall t n, t ≠ tenant -> query_first w' t n = query_first w t n).
Proof.
  intros H.
  apply update_api_tool_provider_inv in H
    as (i & old & parsed & a & auth & merged
        & _ & Hq & _ & _ & _ & _ & -> & _).
  exists i, old. split; [exact Hq|].
  apply query_first_Some in Hq as (Hi & Ht & _).
  split; [apply length_insert|]. split; [reflexivity|]. split.
  - intros j Hj. simpl. by apply list_lookup_insert_ne.
  - intros t n Hne. unfold query_first. simpl rows.
    apply (list_find_insert_other _ _ _ old); [done|..].
    + intros [Hot _]. congruence.
    + simpl. intros [Hnt _]. congruence.
Qed.

Lemma update_confined_to_its_row_witness :
  rows (DemoCases.world_of DemoListing.rename_to_free) !! 1
  = rows Demo.world2 !! 1
  /\ query_first (DemoCases.world_of DemoListing.rename_to_free) "t2" "weather"
     = query_first Demo.world2 "t2" "weather".
Proof.
  destruct (update_confined_to_its_row Demo.env Demo.world2 "u1" "t1"
              " forecast " "weather" ∅ (Demo.api_key_credentials "secret1")
              "openapi" Demo.petstore "" "" []
              (DemoCases.world_of DemoListing.rename_to_free)
              (Result "success"))
    as (i & old & Hq & _ & _ & Hrows & Htenants);
    [vm_compute; reflexivity|].
  assert (i = 0) as ->.
  { assert (query_first Demo.world2 "t1" "weather"
            = Some (0, DemoUpdate.weather_row)) as Hq0
      by (vm_compute; reflexivity).
    rewrite Hq0 in Hq. by inversion Hq. }
  split; [by apply Hrows|]. apply Htenants. discriminate.
Defined.

(** X12. An update whose new name is not the name of another provider of
    the tenant moves the provider: it is found under the trimmed new name at
    the same place and with the same identity, and - in a table where tenant
    and name are unique, the new name differing from the old - no longer
    under the old name. *)
Theorem update_moves_provider E w user tenant provider_name
    original_provider icon_dict credentials schema_type schema_text policy
    disclaimer labels w' r :
  (forall p, p ∈ rows w -> tenant_id p = tenant ->
             name p = strip provider_name -> name p = original_provider) ->
  update_api_tool_provider E w user tenant provider_name original_provider
    icon_dict credentials schema_type schema_text policy disclaimer labels
  = inr (w', r) ->
  exists i old new,
    query_first w tenant original_provider = Some (i, old)
    /\ query_first w' tenant (strip provider_name) = Some (i, new)
    /\ id new = id old
    /\ (unique_names w -> strip provider_name ≠ original_provider ->
        query_first w' tenant original_provider = None).
Proof.
  intros Hfree H.
  apply update_api_tool_provider_row in H
    as (i & old & new & parsed & Hq & _ & Hrows & Hid & Ht & _ & Hn & _).
  exists i, old, new. split; [exact Hq|].
  unfold query_first in Hq.
  apply list_find_Some in Hq as (Hi & [Hot Hon] & Hleast).
  assert (i < length (rows w)) as Hlt by (by eapply lookup_lt_Some).
  split; [|split; [exact Hid|]].
  - unfold query_first. apply list_find_Some. rewrite Hrows.
    split; [by apply list_lookup_insert_eq|].
    split; [split; congruence|].
    intros j y Hj Hji [Hyt Hyn].
    rewrite list_lookup_insert_ne in Hj by lia.
    apply (Hleast j y Hj Hji). split; [done|].
    apply Hfree; [by eapply list_elem_of_lookup_2|done..].
  - intros Huniq Hne. apply query_first_None. intros p Hin [Hpt Hpn].
    rewrite Hrows in Hin. apply list_elem_of_lookup in Hin as [j Hj].
    apply list_lookup_insert_Some in Hj as [(-> & <- & _)|[Hji Hj]].
    + congruence.
    + apply Hji. symmetry.
      apply (proj1 (NoDup_alt _) Huniq j i (tenant, original_provider)).
      * rewrite list_lookup_fmap, Hj. simpl. congruence.
      * rewrite list_lookup_fmap, Hi. simpl. congruence.
Qed.

Lemma update_moves_provider_witness :
  exists new,
    query_first (DemoCases.world_of DemoListing.rename_to_free) "t1" "forecast"
    = Some (0, new)
    /\ id new = Some 1
    /\ query_first (DemoCases.world_of DemoListing.rename_to_free) "t1"
         "weather" = None.
Proof.
  destruct (update_moves_provider Demo.env Demo.world2 "u1" "t1" " forecast "
              "weather" ∅ (Demo.api_key_credentials "secret1") "openapi"
              Demo.petstore "" "" []
              (DemoCases.world_of DemoListing.rename_to_free)
              (Result "success"))
    as (i & old & new & Hq & Hnew & Hid & Hold).
  - intros p Hin _ Hname. exfalso.
    apply list_elem_of_In in Hin. vm_compute in Hin.
    destruct Hin as [<-|[<-|[]]]; vm_compute in Hname; discriminate.
  - vm_compute. reflexivity.
  - assert (query_first Demo.world2 "t1" "weather"
            = Some (0, DemoUpdate.weather_row)) as Hq0
      by (vm_compute; reflexivity).
    rewrite Hq0 in Hq. inversion Hq; subst i old.
    exists new. split; [exact Hnew|]. split; [by rewrite Hid|].
    apply Hold; [|discriminate].
    apply (bool_decide_unpack (unique_names Demo.world2)). vm_compute. exact I.
Defined.

(** ** The merge loop: when it raises, and what it keeps *)

Lemma foldl_keep_original_inl original masked l acc e :
  foldl (keep_original original masked) (inr acc) l = inl e ->
  exists k v, (k, v) ∈ l /\ masked !! k = Some v /\ original !! k = None
              /\ e = KeyError k.
Proof.
  revert acc. induction l as [|[k v] l IH]; intros acc H; [done|].
  change (foldl (keep_original original masked)
            (keep_original original masked (inr acc) (k, v)) l = inl e) in H.
  destruct (keep_original original masked (inr acc) (k, v))
    as [e'|acc'] eqn:Hstep.
  - rewrite foldl_keep_original_raise in H. inversion H; subst e'.
    unfold keep_original in Hstep. simpl in Hstep.
    destruct (masked !! k) as [m|] eqn:Hm; [|done].
    destruct (decide (v = m)) as [->|]; [|done].
    destruct (original !! k) eqn:Ho; [done|]. inversion Hstep; subst.
    exists k, m. split; [by left|done].
  - destruct (IH acc' H) as (k' & v' & Hin & Hrest).
    exists k', v'. split; [by right|done].
Qed.

Lemma foldl_keep_original_inr original masked l acc merged :
  foldl (keep_original original masked) (inr acc) l = inr merged ->
  forall k v, (k, v) ∈ l -> masked !! k = Some v -> is_Some (original !! k).
Proof.
  revert acc. induction l as [|[k v] l IH]; intros acc H k' v' Hin Hm.
  { by apply elem_of_nil in Hin. }
  change (foldl (keep_original original masked)
            (keep_original original masked (inr acc) (k, v)) l = inr merged)
    in H.
  destruct (keep_original original masked (inr acc) (k, v))
    as [e'|acc'] eqn:Hstep;
    [by rewrite foldl_keep_original_raise in H|].
  apply elem_of_cons in Hin as [Heq|Hin]; [|by eapply IH].
  inversion Heq; subst k' v'.
  unfold keep_original in Hstep. simpl in Hstep. rewrite Hm in Hstep.
  rewrite decide_True in Hstep by done.
  by destruct (original !! k).
Qed.

(** X13. The merge loop of update and preview raises exactly when some
    submitted field equals its masked value while the plaintext dict has no
    such key; what it raises is the [KeyError] of such a key. *)
Theorem save_original_credentials_raises original masked credentials :
  (forall e,
     save_original_credentials original masked credentials = inl e ->
     exists name value,
       e = KeyError name /\ credentials !! name = Some value
       /\ masked !! name = Some value /\ original !! name = None)
  /\ (forall name value,
        credentials !! name = Some value ->
        masked !! name = Some value ->
        original !! name = None ->
        exists e, save_original_credentials original masked credentials
                  = inl e).
Proof.
  unfold save_original_credentials. split.
  - intros e H.
    apply foldl_keep_original_inl in H as (k & v & Hin & Hm & Ho & ->).
    exists k, v. by apply elem_of_map_to_list in Hin.
  - intros name value Hc Hm Ho.
    destruct (foldl _ _ (map_to_list credentials)) as [e|merged] eqn:H;
      [by exists e|].
    destruct (foldl_keep_original_inr _ _ _ _ _ H name value) as [o Hsome];
      [by apply elem_of_map_to_list|done|congruence].
Qed.

Lemma save_original_credentials_raises_witness :
  save_original_credentials ∅ DemoMerge.lone_mask DemoMerge.submitted
  = inl (KeyError "api_key_value").
Proof.
  destruct (save_original_credentials_raises ∅ DemoMerge.lone_mask
              DemoMerge.submitted) as [Hkey Hraises].
  destruct (Hraises "api_key_value" "se***t1") as [e He];
    [vm_compute; reflexivity..|].
  rewrite He. f_equal.
  destruct (Hkey e He) as (name & value & -> & _ & Hm & _).
  f_equal. unfold DemoMerge.lone_mask in Hm.
  apply lookup_singleton_Some in Hm as [<- _]. reflexivity.
Defined.

(** X14. When the merge loop returns, the merged dict has the keys of the
    submitted dict, no more and no fewer; a field that the mask leaves as it
    is in the plaintext, and a field the mask does not have, keep the
    submitted value. *)
Theorem save_original_credentials_keeps original masked credentials merged :
  save_original_credentials original masked credentials = inr merged ->
  dom merged = dom credentials
  /\ (forall name : string,
        masked !! name = original !! name ->
        merged !! name = credentials !! name)
  /\ (forall name : string,
        masked !! name = None -> merged !! name = credentials !! name).
Proof.
  intros H.
  pose proof (save_original_credentials_lookup _ _ _ _ H) as Hlook.
  split; [|split].
  - apply set_eq. intros name. rewrite !elem_of_dom, (Hlook name).
    destruct (credentials !! name) as [value|] eqn:Hc; [|done].
    destruct (decide (masked !! name = Some value)) as [Hm|]; [|done].
    split; [by eauto|]. intros _.
    unfold save_original_credentials in H.
    eapply foldl_keep_original_inr; [exact H| |exact Hm].
    by apply elem_of_map_to_list.
  - intros name Heq. rewrite (Hlook name).
    destruct (credentials !! name) as [value|]; [|done].
    destruct (decide (masked !! name = Some value)); congruence.
  - intros name Hnone. rewrite (Hlook name).
    destruct (credentials !! name) as [value|]; [|done].
    rewrite decide_False; [done|congruence].
Qed.

Lemma save_original_credentials_keeps_witness :
  dom DemoMerge.merged = dom DemoMerge.submitted
  /\ DemoMerge.merged !! "auth_type" = Some "none"
  /\ DemoMerge.merged !! "api_key_header" = Some "Authorization"
  /\ DemoMerge.merged !! "api_key_value" = Some "secret1".
Proof.
  destruct (save_original_credentials_keeps DemoMerge.stored
              DemoMerge.stored_masked DemoMerge.submitted DemoMerge.merged)
    as (Hdom & Hplain & _); [vm_compute; reflexivity|].
  split; [exact Hdom|].
  split; [rewrite Hplain; vm_compute; reflexivity|].
  split; [rewrite Hplain; vm_compute; reflexivity|].
  vm_compute. reflexivity.
Defined.

(** ** Preview: its replies and its request errors *)

(** X15. The preview never replies with an empty result: a reply is either
    an error reply or a result that is not the empty string, and an empty
    answer of the live call is replaced by [empty response]. *)
Theorem preview_result_is_never_empty E w tenant provider_name tool_name
    credentials parameters schema_type schema_text :
  (forall reply,
     test_api_tool_preview E w tenant provider_name tool_name credentials
       parameters schema_type schema_text = inr reply ->
     (exists msg, reply = Error msg)
     \/ (exists result, reply = Result result /\ result ≠ ""))
  /\ (forall c merged,
        preview_prefix E w tenant provider_name tool_name credentials
          schema_type schema_text = inr (c, merged) ->
        preview_try E c tenant tool_name merged parameters = inr "" ->
        test_api_tool_preview E w tenant provider_name tool_name credentials
          parameters schema_type schema_text = inr (Result "empty response")).
Proof.
  rewrite test_api_tool_preview_eq. split.
  - intros reply H.
    destruct (preview_prefix E w tenant provider_name tool_name credentials
                schema_type schema_text) as [e|[c merged]]; [done|].
    simpl in H. inversion H; subst reply. unfold preview_reply.
    destruct (preview_try E c tenant tool_name merged parameters)
      as [e|result]; [left; by eexists|].
    right. eexists. split; [reflexivity|].
    by destruct (decide (result = "")).
  - intros c merged -> Htry. simpl. by rewrite Htry.
Qed.

Lemma preview_result_is_never_empty_witness :
  test_api_tool_preview DemoMerge.quiet_env Demo.world1 "t1" "draft" "getPet"
    (Demo.api_key_credentials "k") ∅ "openapi" Demo.petstore
  = inr (Result "empty response").
Proof.
  destruct (preview_result_is_never_empty DemoMerge.quiet_env Demo.world1 "t1"
              "draft" "getPet" (Demo.api_key_credentials "k") ∅ "openapi"
              Demo.petstore) as [_ Hempty].
  apply (Hempty (DemoPreview.draft_controller (Demo.api_key_credentials "k"))
           (Demo.api_key_credentials "k"));
    vm_compute; reflexivity.
Defined.

(** X16. The preview raises, rather than replies, for a bad request, in this
    order: an unrecognized schema type (the message names the type); a
    schema that does not parse ([invalid schema], without the parser's
    message); a tool name that is not an operation of the schema; and only
    then credentials without [auth_type] or with an unrecognized one -
    whether or not the provider is stored. *)
Theorem preview_checks_in_order E w tenant provider_name tool_name credentials
    parameters schema_type schema_text :
  let preview :=
    test_api_tool_preview E w tenant provider_name tool_name credentials
      parameters schema_type schema_text in
  (recognized E schema_type = false ->
   preview = inl (ValueError ("invalid schema type " +:+ schema_type)))
  /\ (recognized E schema_type = true ->
      (forall e,
         auto_parse_to_tool_bundle E schema_text = inl e ->
         preview = inl (ValueError "invalid schema"))
      /\ (forall parsed,
            auto_parse_to_tool_bundle E schema_text = inr parsed ->
            ((forall tb, tb ∈ parsed_bundles parsed ->
                         operation_id tb ≠ tool_name) ->
             preview = inl (ValueError ("invalid tool name " +:+ tool_name)))
            /\ (forall tb, tb ∈ parsed_bundles parsed ->
                  operation_id tb = tool_name ->
                  (credentials !! "auth_type" = None ->
                   preview = inl (ValueError "auth_type is required"))
                  /\ (forall a e,
                        credentials !! "auth_type" = Some a ->
                        value_of E a = inl e ->
                        preview = inl e)))).
Proof.
  intros preview. subst preview. unfold test_api_tool_preview.
  split; [by intros ->|]. intros ->. simpl. split; [by intros e ->|].
  intros parsed ->. simpl. split.
  - intros Hnone.
    destruct (List.find _ (parsed_bundles parsed)) as [tb|] eqn:Hfind;
      [|done].
    apply find_some in Hfind as [Hin Hop].
    apply bool_decide_eq_true in Hop.
    apply list_elem_of_In in Hin. by destruct (Hnone tb Hin).
  - intros tb Hin Hop.
    destruct (List.find _ (parsed_bundles parsed)) as [tb'|] eqn:Hfind.
    + split; [by intros ->|]. by intros a e -> ->.
    + exfalso. apply list_elem_of_In in Hin.
      eapply find_none in Hfind; [|exact Hin].
      apply bool_decide_eq_false in Hfind. done.
Qed.

Lemma preview_checks_in_order_witness :
  DemoPreview.preview_weather ∅ = inl (ValueError "auth_type is required")
  /\ test_api_tool_preview Demo.env Demo.world1 "t1" "weather" "dropPet" ∅ ∅
       "openapi" Demo.petstore
     = inl (ValueError "invalid tool name dropPet").
Proof.
  split.
  - destruct (preview_checks_in_order Demo.env Demo.world1 "t1" "weather"
                "getPet" ∅ ∅ "openapi" Demo.petstore) as [_ Hrec].
    destruct Hrec as [_ Hparsed]; [vm_compute; reflexivity|].
    destruct (Hparsed DemoUpdate.petstore_parsed) as [_ Hknown];
      [vm_compute; reflexivity|].
    destruct (Hknown (Demo.bundle "getPet")) as [Hmissing _];
      [vm_compute; by left|vm_compute; reflexivity|].
    apply Hmissing. vm_compute. reflexivity.
  - destruct (preview_checks_in_order Demo.env Demo.world1 "t1" "weather"
                "dropPet" ∅ ∅ "openapi" Demo.petstore) as [_ Hrec].
    destruct Hrec as [_ Hparsed]; [vm_compute; reflexivity|].
    destruct (Hparsed DemoUpdate.petstore_parsed) as [Hunknown _];
      [vm_compute; reflexivity|].
    apply Hunknown. intros tb Hin. apply list_elem_of_In in Hin.
    vm_compute in Hin. destruct Hin as [<-|[<-|[]]]; discriminate.
Defined.

(** ** Parsing a schema and fetching one *)

(** X17. [parser_api_schema] reports a parse failure with the prefix
    [invalid schema: ] twice in front of the parser's message (the inner
    handler's error is caught and wrapped again by the outer one); on success
    it returns the parser's schema type, bundles and warnings together with
    the same three credential fields - [auth_type] (required, default
    [none], options [none] and [api_key]), [api_key_header] (default
    [api_key]) and [api_key_value] (default empty) - whatever the schema. *)
Theorem parser_api_schema_outcome E schema_text :
  (forall e,
     auto_parse_to_tool_bundle E schema_text = inl e ->
     parser_api_schema E schema_text
     = inl (ValueError ("invalid schema: invalid schema: " +:+ str e)))
  /\ (forall parsed,
        auto_parse_to_tool_bundle E schema_text = inr parsed ->
        exists info,
          parser_api_schema E schema_text = inr info
          /\ info_schema_type info = parsed_schema_type parsed
          /\ info_parameters_schema info = parsed_bundles parsed
          /\ info_warning info = parsed_warnings parsed
          /\ (fun c => (config_name c, config_required c, config_default c,
                        fst <$> config_options c))
               <$> info_credentials_schema info
             = [ ("auth_type", true, "none", ["none"; "api_key"]);
                 ("api_key_header", false, "api_key", []);
                 ("api_key_value", false, "", []) ]).
Proof.
  unfold parser_api_schema. split.
  - intros e ->. reflexivity.
  - intros parsed ->. eexists. split; [reflexivity|]. done.
Qed.

Lemma parser_api_schema_outcome_witness :
  parser_api_schema Demo.env "<html></html>"
  = inl (ValueError "invalid schema: invalid schema: malformed document").
Proof.
  destruct (parser_api_schema_outcome Demo.env "<html></html>") as [Hfail _].
  apply (Hfail (Exception "malformed document")). vm_compute. reflexivity.
Defined.

(** X18. [get_api_tool_provider_remote_schema] returns exactly when the
    request answers with status 200 and a text the parser accepts, and what
    it returns is that text, unchanged. *)
Theorem remote_schema_success E user tenant url reply :
  get_api_tool_provider_remote_schema E user tenant url = inr reply <->
  exists response parsed,
    get E url headers 10 = inr response
    /\ status_code response = 200%Z
    /\ auto_parse_to_tool_bundle E (text response) = inr parsed
    /\ reply = Schema (text response).
Proof.
  rewrite get_api_tool_provider_remote_schema_cases. split.
  - destruct (get E url headers 10) as [e|response]; [done|].
    destruct (decide (status_code response = 200%Z)) as [Hok|Hne].
    + rewrite (bool_decide_eq_true_2 _ Hok). unfold parser_api_schema.
      destruct (auto_parse_to_tool_bundle E (text response))
        as [e|parsed] eqn:Hparse; [done|].
      simpl. intros H. inversion H. by exists response, parsed.
    + by rewrite (bool_decide_eq_false_2 _ Hne).
  - intros (response & parsed & -> & Hok & Hparse & ->).
    rewrite (bool_decide_eq_true_2 _ Hok). unfold parser_api_schema.
    by rewrite Hparse.
Qed.

Lemma remote_schema_success_witness :
  get_api_tool_provider_remote_schema Demo.env "u1" "t1"
    "https://example.com/openapi.txt" = inr (Schema Demo.petstore).
Proof.
  apply remote_schema_success.
  exists {| status_code := 200; text := Demo.petstore |},
         DemoUpdate.petstore_parsed.
  repeat split; vm_compute; reflexivity.
Defined.

(** ** Listing the tools of a provider *)

(** X20. [list_api_tool_provider_tools] fails with
    [you have not added provider <name>] when the tenant has no provider of
    that name; otherwise it returns one entity per bundle stored in the
    first matching row, in the stored order, each converted with the
    caller's tenant id and the labels of that provider. *)
Theorem list_tools_one_per_bundle {T : Type} (L : Transformers T) w user
    tenant provider_name :
  (query_first w tenant provider_name = None ->
   list_api_tool_provider_tools L w user tenant provider_name
   = inl (ValueError ("you have not added provider " +:+ provider_name)))
  /\ (forall i provider,
        query_first w tenant provider_name = Some (i, provider) ->
        exists entities,
          list_api_tool_provider_tools L w user tenant provider_name
          = inr entities
          /\ length entities
             = length (json_loads_bundles L (tools_str provider))
          /\ forall k tool_bundle,
               json_loads_bundles L (tools_str provider) !! k
               = Some tool_bundle ->
               entities !! k
               = Some (convert_tool_entity_to_api_entity L tool_bundle tenant
                         (get_tool_labels L (effects w)
                            (api_provider_to_controller L provider)))).
Proof.
  unfold list_api_tool_provider_tools. split; [by intros ->|].
  intros i provider ->. eexists. split; [reflexivity|].
  split; [apply length_fmap|].
  intros k tool_bundle Hk. by rewrite list_lookup_fmap, Hk.
Qed.

Lemma list_tools_one_per_bundle_witness :
  list_api_tool_provider_tools DemoListing.transformers Demo.world2 "u1" "t2"
    "weather" = inl (ValueError "you have not added provider weather")
  /\ exists entities,
       list_api_tool_provider_tools DemoListing.transformers Demo.world2 "u1"
         "t1" "weather" = inr entities
       /\ entities !! 1 = Some ("addPet", "t1", []).
Proof.
  split.
  - destruct (list_tools_one_per_bundle DemoListing.transformers Demo.world2
                "u1" "t2" "weather") as [Hnone _].
    apply Hnone. vm_compute. reflexivity.
  - destruct (list_tools_one_per_bundle DemoListing.transformers Demo.world2
                "u1" "t1" "weather") as [_ Hfound].
    destruct (Hfound 0 DemoUpdate.weather_row) as (entities & Hlist & _ & Hk);
      [vm_compute; reflexivity|].
    exists entities. split; [exact Hlist|].
    assert (json_loads_bundles DemoListing.transformers
              (tools_str DemoUpdate.weather_row) !! 1
            = Some (Demo.bundle "addPet")) as Hstored
      by (vm_compute; reflexivity).
    etransitivity; [exact (Hk 1 (Demo.bundle "addPet") Hstored)|].
    vm_compute. reflexivity.
Defined.

(** X21. After a successful create, provided the stored bundle text reads
    back as the compiled bundles, listing the tools of the new provider
    gives one entity per compiled bundle, in the order of the parser. *)
Theorem create_then_list_tools {T : Type} (L : Transformers T) E w user tenant
    provider_name icon_dict credentials schema_type schema_text policy
    disclaimer labels parsed w' r :
  convert_schema_to_tool_bundles E schema_text = inr parsed ->
  json_loads_bundles L (json_dumps_bundles E (parsed_bundles parsed))
  = parsed_bundles parsed ->
  create_api_tool_provider E w user tenant provider_name icon_dict
    credentials schema_type schema_text policy disclaimer labels
  = inr (w', r) ->
  forall user',
  exists controller,
    list_api_tool_provider_tools L w' user' tenant (strip provider_name)
    = inr ((fun tool_bundle =>
              convert_tool_entity_to_api_entity L tool_bundle tenant
                (get_tool_labels L (effects w') controller))
             <$> parsed_bundles parsed).
Proof.
  intros Hparse Hround H user'.
  apply create_api_tool_provider_inv in H
    as (parsed' & a & auth & _ & Hq & Hparse' & _ & _ & _ & -> & _).
  rewrite Hparse in Hparse'. inversion Hparse'; subst parsed'.
  unfold list_api_tool_provider_tools.
  rewrite (query_first_create_world_found E user tenant provider_name
             icon_dict credentials schema_text policy disclaimer parsed auth
             w labels Hq).
  eexists. simpl tools_str. rewrite Hround. reflexivity.
Qed.

Lemma create_then_list_tools_witness :
  exists controller,
    list_api_tool_provider_tools DemoListing.transformers Demo.world2 "u5"
      "t1" "pets"
    = inr ((fun tool_bundle =>
              convert_tool_entity_to_api_entity DemoListing.transformers
                tool_bundle "t1"
                (get_tool_labels DemoListing.transformers
                   (effects Demo.world2) controller))
             <$> [Demo.bundle "getPet"; Demo.bundle "addPet"]).
Proof.
  apply (create_then_list_tools DemoListing.transformers Demo.env Demo.world1
           "u1" "t1" "pets" ∅ (Demo.api_key_credentials "secret2") "openapi"
           Demo.petstore "" "" [] DemoUpdate.petstore_parsed Demo.world2
           (Result "success"));
    vm_compute; reflexivity.
Defined.

(** ** Update: request errors, and handing the mask back *)

(** X22. Update reports the first check that fails: an unrecognized schema
    type (the message carries the schema document); then a provider that is
    not found under the original name - before the schema is parsed, and
    with the trimmed new name, not the name that was looked up, in the
    message; then a schema that does not parse; and only then credentials
    without [auth_type] or with an unrecognized one. *)
Theorem update_checks_in_order E w user tenant provider_name original_provider
    icon_dict credentials schema_type schema_text policy disclaimer labels :
  let update :=
    update_api_tool_provider E w user tenant provider_name original_provider
      icon_dict credentials schema_type schema_text policy disclaimer labels in
  (recognized E schema_type = false ->
   update = inl (ValueError ("invalid schema type " +:+ schema_text)))
  /\ (recognized E schema_type = true ->
      (query_first w tenant original_provider = None ->
       update = inl (ValueError ("api provider " +:+ strip provider_name
                                 +:+ " does not exists")))
      /\ (is_Some (query_first w tenant original_provider) ->
          (forall e,
             auto_parse_to_tool_bundle E schema_text = inl e ->
             update = inl (ValueError ("invalid schema: " +:+ str e)))
          /\ (forall parsed,
                auto_parse_to_tool_bundle E schema_text = inr parsed ->
                (credentials !! "auth_type" = None ->
                 update = inl (ValueError "auth_type is required"))
                /\ (forall a e,
                      credentials !! "auth_type" = Some a ->
                      value_of E a = inl e ->
                      update = inl e)))).
Proof.
  intros update. subst update. unfold update_api_tool_provider.
  split; [by intros ->|]. intros ->. simpl. split; [by intros ->|].
  intros [[i provider] ->]. unfold convert_schema_to_tool_bundles.
  split; [by intros e ->|].
  intros parsed ->. simpl. split; [by intros ->|]. by intros a e -> ->.
Qed.

Lemma update_checks_in_order_witness :
  update_api_tool_provider Demo.env Demo.world1 "u1" "t1" " forecast "
    "wheather" ∅ ∅ "openapi" "not a schema" "" "" []
  = inl (ValueError "api provider forecast does not exists").
Proof.
  destruct (update_checks_in_order Demo.env Demo.world1 "u1" "t1" " forecast "
              "wheather" ∅ ∅ "openapi" "not a schema" "" "" []) as [_ Hrec].
  destruct Hrec as [Hmissing _]; [vm_compute; reflexivity|].
  apply Hmissing. vm_compute. reflexivity.
Defined.

(** X23. Handing back what was shown: in a table where tenant and name are
    unique, an update whose new name is not the name of another provider of
    the tenant and that submits the masked form of the stored credentials,
    the mask having the keys of the plaintext, succeeds and encrypts and
    stores the stored plaintext again - no field is replaced by its mask. *)
Theorem update_with_stored_mask_keeps_plaintext E w user tenant provider_name
    original_provider icon_dict schema_type schema_text policy disclaimer
    labels i provider parsed a auth :
  let encrypter :=
    update_encrypter E provider tenant provider_name icon_dict schema_text
      policy disclaimer parsed auth in
  let original :=
    stored_plaintext E provider tenant provider_name icon_dict schema_text
      policy disclaimer parsed auth in
  let masked :=
    stored_mask E provider tenant provider_name icon_dict schema_text
      policy disclaimer parsed auth in
  unique_names w ->
  (forall p, p ∈ rows w -> tenant_id p = tenant ->
             name p = strip provider_name -> name p = original_provider) ->
  recognized E schema_type = true ->
  query_first w tenant original_provider = Some (i, provider) ->
  convert_schema_to_tool_bundles E schema_text = inr parsed ->
  masked !! "auth_type" = Some a ->
  value_of E a = inr auth ->
  dom masked = dom original ->
  exists w' stored,
    update_api_tool_provider E w user tenant provider_name original_provider
      icon_dict masked schema_type schema_text policy disclaimer labels
    = inr (w', Result "success")
    /\ rows w' !! i = Some stored
    /\ credentials_str stored = json_dumps E (encrypt encrypter original).
Proof.
  intros encrypter original masked Huniq Hfree Hrec Hq Hparse Ha Hauth Hdom.
  rewrite (update_api_tool_provider_steps E w user tenant provider_name
             original_provider icon_dict masked schema_type schema_text
             policy disclaimer labels i provider parsed a auth
             Hrec Hq Hparse Ha Hauth).
  fold original masked.
  destruct (save_original_credentials_total original masked masked)
    as [merged Hmerge].
  { intros name Hsome. apply elem_of_dom. rewrite <- Hdom.
    by apply elem_of_dom. }
  rewrite Hmerge. simpl.
  assert (merged = original) as ->.
  { apply map_eq. intros name.
    rewrite (save_original_credentials_lookup _ _ _ _ Hmerge name).
    destruct (masked !! name) as [value|] eqn:Hm.
    - by rewrite decide_True.
    - symmetry. apply not_elem_of_dom. rewrite <- Hdom.
      by apply not_elem_of_dom. }
  rewrite commit_row_free
    by (by apply (free_name_not_taken w tenant provider_name
                    original_provider i provider)).
  eexists.
  exists (update_record E provider tenant provider_name icon_dict schema_text
            policy disclaimer parsed auth original).
  split; [reflexivity|]. split; [|reflexivity].
  simpl. apply list_lookup_insert_eq.
  apply query_first_Some in Hq as [Hi _]. by eapply lookup_lt_Some.
Qed.

Lemma update_with_stored_mask_keeps_plaintext_witness :
  exists w' stored,
    update_api_tool_provider Demo.env Demo.world1 "u1" "t1" "weather"
      "weather" ∅ DemoUpdate.resubmitted "openapi" Demo.petstore "" "" []
    = inr (w', Result "success")
    /\ rows w' !! 0 = Some stored
    /\ credentials_str stored = "auth_type=api_key;api_key_value=enc:secret1;".
Proof.
  destruct (update_with_stored_mask_keeps_plaintext Demo.env Demo.world1 "u1"
              "t1" "weather" "weather" ∅ "openapi" Demo.petstore "" "" [] 0
              DemoUpdate.weather_row DemoUpdate.petstore_parsed "api_key"
              API_KEY)
    as (w' & stored & Hupdate & Hrow & Hcred);
    [apply (bool_decide_unpack (unique_names Demo.world1));
     vm_compute; exact I
    |intros p _ _ Hname; exact Hname
    |vm_compute; reflexivity..|].
  exists w', stored. split; [|split; [exact Hrow|]].
  - etransitivity; [|exact Hupdate]. vm_compute. reflexivity.
  - rewrite Hcred. vm_compute. reflexivity.
Defined.
